(** * Deplot model interface: request formatting and response parsing

    A shallow embedding of [src/nv_ingest/util/nim/deplot.py]
    (class [DeplotModelInterface]) and the properties of its four
    operations: [prepare_data_for_inference], [format_input],
    [parse_output] and [process_inference_results]. *)

From Stdlib Require Import ZArith List String Ascii Lia.
From Stdlib.Strings Require Import Byte.
From Stdlib Require Import SpecFloat DecimalString.
From stdpp Require Import base option list gmap strings.

#[local] Set Warnings "-register-all".
#[local] Open Scope Z_scope.

(** ** NumPy arrays *)

(** IEEE binary32 numbers ([np.float32]): [spec_float] at precision 24 and
    maximal exponent 128, with round-to-nearest-even operations. *)
Abbreviation float32 := spec_float.
Definition f32_of_Z (z : Z) : float32 := binary_normalize 24 128 z 0 false.
Definition f32_div (x y : float32) : float32 := SFdiv 24 128 x y.
Definition f32_one : float32 := SFone 24 128.
Definition f32_zero : float32 := S754_zero false.
Definition f32_leb (x y : float32) : bool := SFleb x y.

(** Python floats are IEEE binary64 numbers. *)
Definition f64_of_Z (z : Z) : spec_float := binary_normalize 53 1024 z 0 false.
Definition f64_div (x y : spec_float) : spec_float := SFdiv 53 1024 x y.

(** The element buffer of an array, in row-major order, with its element
    type: [uint8] (what an 8-bit image decodes to) or [float32]. *)
Inductive buffer :=
| U8 (items : list byte)
| F32 (items : list float32).

Record ndarray := mk_ndarray { shape : list nat; buf : buffer }.

Definition ndim (a : ndarray) : nat := length (shape a).

Definition buffer_length (b : buffer) : nat :=
  match b with
  | U8 items => length items
  | F32 items => length items
  end.

Definition num_elements (dims : list nat) : nat := foldr Nat.mul 1%nat dims.

(** The buffer holds as many elements as the shape says. *)
Definition wf_array (a : ndarray) : Prop :=
  buffer_length (buf a) = num_elements (shape a).

Definition f32_of_byte (b : byte) : float32 := f32_of_Z (Z.of_N (Byte.to_N b)).

Definition f32_items (b : buffer) : list float32 :=
  match b with
  | U8 items => map f32_of_byte items
  | F32 items => items
  end.

(** [np.expand_dims(arr, axis=0)] *)
Definition np_expand_dims (a : ndarray) : ndarray :=
  {| shape := 1%nat :: shape a; buf := buf a |}.

(** [arr.astype(np.float32)]: a new array, element by element. *)
Definition np_astype_float32 (a : ndarray) : ndarray :=
  {| shape := shape a; buf := F32 (f32_items (buf a)) |}.

Definition is_U8 (b : buffer) : bool :=
  match b with U8 _ => true | F32 _ => false end.

Definition u8_items (b : buffer) : list byte :=
  match b with U8 items => items | F32 _ => [] end.

(** The buffers of several arrays, one after the other; the element type
    is promoted to float32 as soon as one of them is float32. *)
Definition concat_buffers (bs : list buffer) : buffer :=
  if forallb is_U8 bs then U8 (concat (map u8_items bs))
  else F32 (concat (map f32_items bs)).

(** The rows of an array along its first axis, as flat element lists. *)
Definition rows (a : ndarray) : list (list float32) :=
  let width := num_elements (tail (shape a)) in
  map (fun j => take width (drop (j * width) (f32_items (buf a))))
      (seq 0 (hd 0%nat (shape a))).

(** ** Python values *)

(** A [str] is held as the UTF-8 encoding of its text, [bytes] as the list
    of its bytes, a [float] as a binary64 number; a [dict] has string
    keys. *)
Inductive value :=
| VNone
| VBool (b : bool)
| VInt (z : Z)
| VFloat (f : spec_float)
| VStr (s : string)
| VBytes (b : list byte)
| VList (l : list value)
| VDict (d : gmap string value)
| VArr (a : ndarray).

Abbreviation dict := (gmap string value).

(** ** Exceptions and results *)

(** The Python exception classes the module raises or lets through.  A
    [KeyError] carries its argument: the message of an explicit [raise], or
    the key of a failed lookup.  [ValueError] and [RuntimeError] carry
    their message. *)
Inductive exn :=
| KeyError (arg : value)
| ValueError (msg : string)
| RuntimeError (msg : string)
| TypeError
| AttributeError
| IndexError
| UnicodeDecodeError.

Inductive result (A : Type) :=
| Ok (a : A)
| Raise (e : exn).
Arguments Ok {A} a.
Arguments Raise {A} e.

#[export] Instance result_ret : MRet result := fun _ a => Ok a.
#[export] Instance result_bind : MBind result := fun _ _ f m =>
  match m with
  | Ok a => f a
  | Raise e => Raise e
  end.
#[export] Instance result_fmap : FMap result := fun _ _ f m =>
  match m with
  | Ok a => Ok (f a)
  | Raise e => Raise e
  end.

(** [mapM] in the [result] monad: a Python loop or comprehension whose body
    may raise; the first exception aborts it. *)
Fixpoint mapM_result {A B} (f : A -> result B) (l : list A) : result (list B) :=
  match l with
  | [] => Ok []
  | x :: l' =>
      match f x with
      | Ok y =>
          match mapM_result f l' with
          | Ok ys => Ok (y :: ys)
          | Raise e => Raise e
          end
      | Raise e => Raise e
      end
  end.

(** ** Python built-ins used by the module *)

(** [range(start, stop, step)] for a positive step, by iteration: [i] starts
    at [start] and grows by [step] while [i < stop]. *)
Fixpoint range_up (fuel : nat) (i stop step : Z) : list Z :=
  match fuel with
  | O => []
  | S fuel' =>
      if bool_decide (i < stop) then i :: range_up fuel' (i + step) stop step
      else []
  end.

(** The same for a negative step: [i] decreases while [i > stop]. *)
Fixpoint range_down (fuel : nat) (i stop step : Z) : list Z :=
  match fuel with
  | O => []
  | S fuel' =>
      if bool_decide (stop < i) then i :: range_down fuel' (i + step) stop step
      else []
  end.

(** [range] refuses a zero step with a [ValueError]; the number of values
    is at most [|stop - start|], which is the fuel given. *)
Definition py_range (start stop step : Z) : result (list Z) :=
  if bool_decide (step = 0) then
    Raise (ValueError "range() arg 3 must not be zero")
  else if bool_decide (0 < step) then
    Ok (range_up (Z.to_nat (stop - start)) start stop step)
  else
    Ok (range_down (Z.to_nat (start - stop)) start stop step).

(** A slice bound is clamped as Python does: a negative bound counts from
    the end, and the result is cut to [0 .. len]. *)
Definition clamp_index (len i : Z) : Z :=
  if bool_decide (i < 0) then Z.max (i + len) 0 else Z.min i len.

(** [lst[i:j]] *)
Definition py_slice {A} (lst : list A) (i j : Z) : list A :=
  let len := Z.of_nat (length lst) in
  let lo := clamp_index len i in
  let hi := clamp_index len j in
  take (Z.to_nat (hi - lo)) (drop (Z.to_nat lo) lst).

(** deplot.py, lines 102-103:
    [[lst[i : i + chunk_size] for i in range(0, len(lst), chunk_size)]] *)
Definition chunk_list {A} (lst : list A) (chunk_size : Z) : result (list (list A)) :=
  idx ← py_range 0 (Z.of_nat (length lst)) chunk_size;
  Ok (map (fun i => py_slice lst i (i + chunk_size)) idx).

(** [ceil(n / c)] on integers. *)
Definition ceil_div (n c : Z) : Z := (n + c - 1) / c.

(** ** NumPy operations that may raise *)

(** [arr /= d] for a Python float [d] that binary32 holds exactly: on a
    float32 array the division is done in binary32; on an integer array
    NumPy refuses to cast the quotient back (a [TypeError]). *)
Definition np_itruediv (a : ndarray) (d : float32) : result ndarray :=
  match buf a with
  | F32 items => Ok {| shape := shape a; buf := F32 (map (fun x => f32_div x d) items) |}
  | U8 _ => Raise TypeError
  end.

(** [np.concatenate(arrs, axis=0)] *)
Definition np_concatenate (arrs : list ndarray) : result ndarray :=
  match arrs with
  | [] => Raise (ValueError "need at least one array to concatenate")
  | a0 :: rest =>
      if existsb (fun a => Nat.eqb (ndim a) 0) arrs then
        Raise (ValueError "zero-dimensional arrays cannot be concatenated")
      else if negb (forallb (fun a => Nat.eqb (ndim a) (ndim a0)) rest) then
        Raise (ValueError "all the input arrays must have same number of dimensions")
      else if negb (forallb (fun a => bool_decide (tail (shape a) = tail (shape a0))) rest) then
        Raise (ValueError "all the input array dimensions except for the concatenation axis must match exactly")
      else
        Ok {| shape := foldr Nat.add 0%nat (map (fun a => hd 0%nat (shape a)) arrs)
                         :: tail (shape a0);
              buf := concat_buffers (map buf arrs) |}
  end.

(** Decimal text of a natural number. *)
Definition string_of_nat (n : nat) : string :=
  NilZero.string_of_uint (Nat.to_uint n).

Fixpoint py_join (sep : string) (l : list string) : string :=
  match l with
  | [] => EmptyString
  | [s] => s
  | s :: l' => s +:+ sep +:+ py_join sep l'
  end.

(** [repr] of a tuple of integers: [()], [(3,)], [(2, 2, 3)]. *)
Definition repr_tuple (t : list nat) : string :=
  match t with
  | [n] => "(" +:+ string_of_nat n +:+ ",)"
  | _ => "(" +:+ py_join ", " (map string_of_nat t) +:+ ")"
  end.

Definition repr_shapes (shapes : list (list nat)) : string :=
  "[" +:+ py_join ", " (map repr_tuple shapes) +:+ "]".

(** ** Strings, bytes and truth values *)

Definition byte_in (lo hi : N) (b : byte) : bool :=
  (N.leb lo (Byte.to_N b) && N.leb (Byte.to_N b) hi)%bool.

Definition utf8_cont (b : byte) : bool := byte_in 128 191 b.

(** Well-formed UTF-8, as the strict decoder of [bytes.decode("utf-8")]
    accepts it: shortest encodings only, no surrogates, nothing above
    U+10FFFF. *)
Fixpoint utf8_valid (l : list byte) : bool :=
  match l with
  | [] => true
  | b0 :: l1 =>
      if byte_in 0 127 b0 then utf8_valid l1
      else
        match l1 with
        | [] => false
        | b1 :: l2 =>
            if byte_in 194 223 b0 then utf8_cont b1 && utf8_valid l2
            else
              match l2 with
              | [] => false
              | b2 :: l3 =>
                  if byte_in 224 239 b0 then
                    (if byte_in 224 224 b0 then byte_in 160 191 b1
                     else if byte_in 237 237 b0 then byte_in 128 159 b1
                     else utf8_cont b1)
                    && utf8_cont b2 && utf8_valid l3
                  else
                    match l3 with
                    | [] => false
                    | b3 :: l4 =>
                        if byte_in 240 244 b0 then
                          (if byte_in 240 240 b0 then byte_in 144 191 b1
                           else if byte_in 244 244 b0 then byte_in 128 143 b1
                           else utf8_cont b1)
                          && utf8_cont b2 && utf8_cont b3 && utf8_valid l4
                        else false
                    end
              end
        end
  end.

(** [b.decode("utf-8")] *)
Definition bytes_decode (b : list byte) : result string :=
  if utf8_valid b then Ok (string_of_list_byte b) else Raise UnicodeDecodeError.

(** The characters of a [str], each as a one-character [str]. *)
Definition utf8_width (b : byte) : nat :=
  if byte_in 0 127 b then 1 else if byte_in 128 223 b then 2
  else if byte_in 224 239 b then 3 else 4.

Fixpoint utf8_chars (fuel : nat) (l : list byte) : list (list byte) :=
  match fuel, l with
  | S fuel', b :: _ =>
      take (utf8_width b) l :: utf8_chars fuel' (drop (utf8_width b) l)
  | _, _ => []
  end.

Definition str_chars (s : string) : list string :=
  let bs := list_byte_of_string s in
  map string_of_list_byte (utf8_chars (length bs) bs).

(** [seq[i]] on a sequence with its elements listed: a negative index
    counts from the end. *)
Definition py_index {A} (l : list A) (i : Z) : result A :=
  let n := Z.of_nat (length l) in
  let j := if bool_decide (i < 0) then i + n else i in
  if bool_decide (0 <= j < n) then
    match l !! Z.to_nat j with
    | Some x => Ok x
    | None => Raise IndexError
    end
  else Raise IndexError.

Definition buffer_slice (b : buffer) (off len : nat) : buffer :=
  match b with
  | U8 items => U8 (take len (drop off items))
  | F32 items => F32 (take len (drop off items))
  end.

(** [arr[j]] for [0 <= j < arr.shape[0]]: the sub-array at [j]. *)
Definition np_row (a : ndarray) (j : nat) : ndarray :=
  let width := num_elements (tail (shape a)) in
  {| shape := tail (shape a); buf := buffer_slice (buf a) (j * width) width |}.

Definition float_is_zero (f : spec_float) : bool :=
  match f with S754_zero _ => true | _ => false end.

(** [bool(v)], the test behind [not v]. *)
Definition py_bool (v : value) : result bool :=
  match v with
  | VNone => Ok false
  | VBool b => Ok b
  | VInt z => Ok (negb (Z.eqb z 0))
  | VFloat f => Ok (negb (float_is_zero f))
  | VStr s => Ok (match s with EmptyString => false | _ => true end)
  | VBytes b => Ok (match b with [] => false | _ => true end)
  | VList l => Ok (match l with [] => false | _ => true end)
  | VDict d => Ok (negb (Nat.eqb (size d) 0))
  | VArr a =>
      match buf a with
      | U8 [] | F32 [] => Ok false
      | U8 [x] => Ok (negb (N.eqb (Byte.to_N x) 0))
      | F32 [x] => Ok (negb (float_is_zero x))
      | _ => Raise (ValueError "The truth value of an array with more than one element is ambiguous. Use a.any() or a.all()")
      end
  end.

(** [v[i]] for an integer [i] *)
Definition py_getitem_int (v : value) (i : Z) : result value :=
  match v with
  | VList l => py_index l i
  | VStr s => VStr <$> py_index (str_chars s) i
  | VBytes b => (fun x => VInt (Z.of_N (Byte.to_N x))) <$> py_index b i
  | VDict _ => Raise (KeyError (VInt i))
  | VArr a =>
      match shape a with
      | [] => Raise IndexError
      | n :: _ => (fun j => VArr (np_row a j)) <$> py_index (seq 0 n) i
      end
  | VNone | VBool _ | VInt _ | VFloat _ => Raise TypeError
  end.

(** [v[k]] for a string [k] *)
Definition py_getitem_str (v : value) (k : string) : result value :=
  match v with
  | VDict d =>
      match d !! k with
      | Some x => Ok x
      | None => Raise (KeyError (VStr k))
      end
  | VArr _ => Raise IndexError
  | _ => Raise TypeError
  end.

(** The module's annotations make some values lists ([image_arrays], the
    gRPC response, [base64_list]).  Such a value is taken as a list; any
    other value is refused with a [TypeError]: what Python would do with
    another iterable there is outside the annotated types. *)
Definition as_list (v : value) : result (list value) :=
  match v with
  | VList l => Ok l
  | _ => Raise TypeError
  end.

(** ** The store *)

(** The [data] mapping is a mutable object that the caller shares with the
    interface: it lives in a store, and the operations take its
    location. *)
Definition loc := positive.
Abbreviation store := (gmap loc (gmap string value)).

Definition M (A : Type) : Type := store -> result A * store.

#[export] Instance M_ret : MRet M := fun _ a σ => (Ok a, σ).
#[export] Instance M_bind : MBind M := fun _ _ f m σ =>
  match m σ with
  | (Ok a, σ') => f a σ'
  | (Raise e, σ') => (Raise e, σ')
  end.

Definition lift {A} (r : result A) : M A := fun σ => (r, σ).
Definition raise {A} (e : exn) : M A := lift (Raise e).

(** [k in data] *)
Definition dict_contains (data : loc) (k : string) : M bool :=
  fun σ => (Ok (bool_decide (is_Some ((σ !!! data) !! k))), σ).

(** [data[k]] *)
Definition dict_getitem (data : loc) (k : string) : M value :=
  fun σ => (py_getitem_str (VDict (σ !!! data)) k, σ).

(** [data[k] = v] *)
Definition dict_setitem (data : loc) (k : string) (v : value) : M unit :=
  fun σ => (Ok tt, <[data := <[k := v]> (σ !!! data)]> σ).

(** ** The Deplot model interface *)

Definition dquote : string := String (ascii_of_nat 34) EmptyString.

(** The literal 255.0 of line 112, exact in binary32. *)
Definition f32_255 : float32 := f32_of_Z 255.

(** The defaults of the generation parameters: 500, 0.5 and 0.9. *)
Definition default_max_tokens : value := VInt 500.
Definition default_temperature : value := VFloat (f64_div (f64_of_Z 1) (f64_of_Z 2)).
Definition default_top_p : value := VFloat (f64_div (f64_of_Z 9) (f64_of_Z 10)).

(** [kwargs.get(k, default)] *)
Definition kwargs_get (kwargs : dict) (k : string) (default : value) : value :=
  match kwargs !! k with
  | Some v => v
  | None => default
  end.

(** The messages of the module's own [raise] statements. *)
Definition msg_not_a_list : string :=
  "The 'base64_images' key must contain a list of base64-encoded strings.".
Definition msg_missing_input : string :=
  "Input data must include 'base64_image' or 'base64_images'.".
Definition msg_precondition : string :=
  "Expected 'image_arrays' in data. Call prepare_data_for_inference first.".
Definition msg_no_images : string :=
  "No valid images found for gRPC formatting.".
Definition msg_shapes : string :=
  "All images must have the same dimensions for gRPC batching. Found: ".
Definition msg_protocol : string :=
  "Invalid protocol specified. Must be 'grpc' or 'http'.".
Definition msg_choices : string :=
  "Unexpected response format: 'choices' key is missing or empty.".

(** The error taxonomy of the specification, as the exceptions the module
    raises for them. *)
Definition MissingInputError : exn := KeyError (VStr msg_missing_input).
Definition InvalidInputTypeError : exn := ValueError msg_not_a_list.
Definition PreconditionError : exn := KeyError (VStr msg_precondition).
Definition EmptyInputError : exn := ValueError msg_no_images.
Definition ShapeMismatchError (shapes : list (list nat)) : exn :=
  ValueError (msg_shapes +:+ repr_shapes shapes).
Definition UnsupportedProtocolError : exn := ValueError msg_protocol.
Definition MalformedResponseError : exn := RuntimeError msg_choices.

Section interface.

(** The image decoder of [nv_ingest.util.image_processing.transforms], and
    [str] on the values that are not strings. *)
Variable base64_to_numpy : value -> result ndarray.
Variable str_other : value -> string.

(** [str(v)], also what an f-string field [{v}] inserts. *)
Definition py_str (v : value) : string :=
  match v with
  | VStr s => s
  | _ => str_other v
  end.

(** Lines 22-31. *)
Definition name : string := "Deplot".

(** Lines 33-64. *)
Definition prepare_data_for_inference (data : loc) : M loc :=
  has_many ← dict_contains data "base64_images";
  image_arrays ←
    (if has_many : bool then
       base64_list ← dict_getitem data "base64_images";
       match base64_list with
       | VList l => lift (mapM_result base64_to_numpy l)
       | _ => raise (ValueError msg_not_a_list)
       end
     else
       has_one ← dict_contains data "base64_image";
       if has_one : bool then
         b64 ← dict_getitem data "base64_image";
         arr ← lift (base64_to_numpy b64);
         mret [arr]
       else raise (KeyError (VStr msg_missing_input)));
  _ ← dict_setitem data "image_arrays" (VList (VArr <$> image_arrays));
  mret data.

(** Lines 108-113, the body of the loop over [image_arrays].  [astype]
    returns a new array, so the division in place that follows writes to
    that copy and not to the caller's array. *)
Definition process_image (arr : value) : result ndarray :=
  match arr with
  | VArr a =>
      let a := if Nat.eqb (ndim a) 3 then np_expand_dims a else a in
      let a := np_astype_float32 a in
      np_itruediv a f32_255
  | _ => Raise AttributeError
  end.

(** Lines 105-129, the gRPC branch of [format_input]. *)
Definition format_input_grpc (image_arrays : value) (max_batch_size : Z)
  : result (list ndarray) :=
  arrs ← as_list image_arrays;
  processed ← mapM_result process_image arrs;
  match processed with
  | [] => Raise (ValueError msg_no_images)
  | p0 :: _ =>
      let shapes := map (fun p => tail (shape p)) processed in
      if existsb (fun s => bool_decide (s ≠ tail (shape p0))) (tail shapes) then
        Raise (ValueError (msg_shapes +:+ repr_shapes shapes))
      else
        chunks ← chunk_list processed max_batch_size;
        mapM_result np_concatenate chunks
  end.

(** Lines 200-247. *)
Definition deplot_message (b64_img : value) : value :=
  VDict (<["role" := VStr "user"]>
        (<["content" := VStr ("Generate the underlying data table of the figure below: "
                              +:+ "<img src=" +:+ dquote +:+ "data:image/png;base64,"
                              +:+ py_str b64_img +:+ dquote +:+ " />")]> ∅)).

Definition _prepare_deplot_payload (base64_list : list value)
    (max_tokens temperature top_p : value) : value :=
  let messages := map deplot_message base64_list in
  VDict (<["model" := VStr "google/deplot"]>
        (<["messages" := VList messages]>
        (<["max_tokens" := max_tokens]>
        (<["stream" := VBool false]>
        (<["temperature" := temperature]>
        (<["top_p" := top_p]> ∅)))))).

(** Lines 131-150, the HTTP branch of [format_input], once [base64_list]
    is read from [data]. *)
Definition format_input_http (base64_list : value) (max_batch_size : Z)
    (kwargs : dict) : result (list value) :=
  lst ← as_list base64_list;
  chunks ← chunk_list lst max_batch_size;
  Ok (map (fun chunk =>
             _prepare_deplot_payload chunk
               (kwargs_get kwargs "max_tokens" default_max_tokens)
               (kwargs_get kwargs "temperature" default_temperature)
               (kwargs_get kwargs "top_p" default_top_p))
          chunks).

(** Lines 66-153. *)
Definition format_input (data : loc) (protocol : string) (max_batch_size : Z)
    (kwargs : dict) : M value :=
  has_arrays ← dict_contains data "image_arrays";
  if negb has_arrays then raise (KeyError (VStr msg_precondition))
  else
    image_arrays ← dict_getitem data "image_arrays";
    if String.eqb protocol "grpc" then
      batched_inputs ← lift (format_input_grpc image_arrays max_batch_size);
      mret (VList (VArr <$> batched_inputs))
    else if String.eqb protocol "http" then
      has_many ← dict_contains data "base64_images";
      base64_list ←
        (if has_many : bool then dict_getitem data "base64_images"
         else
           b64 ← dict_getitem data "base64_image";
           mret (VList [b64]));
      payloads ← lift (format_input_http base64_list max_batch_size kwargs);
      mret (VList payloads)
    else raise (ValueError msg_protocol).

(** Lines 249-259. *)
Definition _extract_content_from_deplot_response (json_response : dict)
  : result value :=
  match json_response !! "choices" with
  | None => Raise (RuntimeError msg_choices)
  | Some choices =>
      truthy ← py_bool choices;
      if negb truthy then Raise (RuntimeError msg_choices)
      else
        first ← py_getitem_int choices 0;
        message ← py_getitem_str first "message";
        py_getitem_str message "content"
  end.

(** Lines 163-171, the body of the loop over the gRPC response. *)
Definition parse_item (item : value) : result string :=
  match item with
  | VList l =>
      decoded ← mapM_result (fun o => match o with
                                       | VBytes b => bytes_decode b
                                       | _ => Raise AttributeError
                                       end) l;
      Ok (py_join " " decoded)
  | VBytes b => bytes_decode b
  | _ => Ok (py_str item)
  end.

(** Lines 155-178.  The [data] argument is not used.  The response is a
    sequence for gRPC and a mapping for HTTP; a value of another kind is
    refused with a [TypeError]. *)
Definition parse_output (response : value) (protocol : string) : M value :=
  if String.eqb protocol "grpc" then
    items ← lift (as_list response);
    results ← lift (mapM_result parse_item items);
    mret (VList (VStr <$> results))
  else if String.eqb protocol "http" then
    match response with
    | VDict json_response => lift (_extract_content_from_deplot_response json_response)
    | _ => raise TypeError
    end
  else raise (ValueError msg_protocol).

(** Lines 180-198. *)
Definition process_inference_results (output : value) (protocol : string) : M value :=
  mret output.

End interface.


(** ** What the operations compute, in closed form *)

(** The shape of an image once promoted (line 109-110), its dimensions
    apart from the batch axis (line 119), and its pixel values once cast
    and scaled (lines 111-112). *)
Definition promote (a : ndarray) : list nat :=
  if Nat.eqb (ndim a) 3 then 1%nat :: shape a else shape a.

Definition image_dims (a : ndarray) : list nat := tail (promote a).

Definition scale (x : float32) : float32 := f32_div x f32_255.

Definition normalize (a : ndarray) : list float32 :=
  map scale (f32_items (buf a)).

Definition processed_image (a : ndarray) : ndarray :=
  {| shape := promote a; buf := F32 (normalize a) |}.

(** The batch that a chunk of images of dimensions [dims] is concatenated
    into. *)
Definition batch_of (dims : list nat) (chunk : list ndarray) : ndarray :=
  {| shape := foldr Nat.add 0%nat (map (fun a => hd 0%nat (promote a)) chunk) :: dims;
     buf := F32 (concat (map normalize chunk)) |}.

(** A binary32 number in the interval [0, 1]. *)
Definition in_unit_interval (x : float32) : bool :=
  f32_leb f32_zero x && f32_leb x f32_one.

(** The payload of a chunk of encoded images under [kwargs]. *)
Definition payload_of (str_other : value -> string) (kwargs : dict)
    (chunk : list value) : value :=
  _prepare_deplot_payload str_other chunk
    (kwargs_get kwargs "max_tokens" default_max_tokens)
    (kwargs_get kwargs "temperature" default_temperature)
    (kwargs_get kwargs "top_p" default_top_p).

(** The text of a byte string, and the string made of one element of a
    gRPC response whose byte strings are UTF-8 text. *)
Definition text_of (o : value) : string :=
  match o with
  | VBytes b => string_of_list_byte b
  | _ => EmptyString
  end.

Definition render (str_other : value -> string) (item : value) : string :=
  match item with
  | VList l => py_join " " (map text_of l)
  | VBytes b => string_of_list_byte b
  | _ => py_str str_other item
  end.

Definition is_utf8_bytes (o : value) : Prop :=
  exists b, o = VBytes b /\ utf8_valid b = true.

(** An element of a gRPC response as the interface expects it: a list of
    UTF-8 byte strings, one UTF-8 byte string, or a value that is neither
    a list nor a byte string. *)
Definition item_ok (item : value) : Prop :=
  match item with
  | VList l => Forall is_utf8_bytes l
  | VBytes b => utf8_valid b = true
  | _ => True
  end.

(** The store after [data["image_arrays"] = image_arrays]. *)
Definition with_image_arrays (σ : store) (data : loc) (arrs : list ndarray) : store :=
  <[data := <["image_arrays" := VList (VArr <$> arrs)]> (σ !!! data)]> σ.

(** The text of a message: the instruction, then the image as a data URI. *)
Definition message_content (b64 : string) : string :=
  "Generate the underlying data table of the figure below: "
  +:+ "<img src=" +:+ dquote +:+ "data:image/png;base64," +:+ b64 +:+ dquote +:+ " />".

(** A user message for one encoded image, and a payload for a chunk of
    encoded images under [kwargs], entry by entry. *)
Definition is_user_message (str_other : value -> string) (b64_img msg : value) : Prop :=
  exists m : dict,
    msg = VDict m /\
    dom m = {["role"; "content"]} /\
    m !! "role" = Some (VStr "user") /\
    m !! "content" = Some (VStr (message_content (py_str str_other b64_img))).

Definition is_deplot_payload (str_other : value -> string) (kwargs : dict)
    (chunk : list value) (payload : value) : Prop :=
  exists (d : dict) (msgs : list value),
    payload = VDict d /\
    dom d = {["model"; "messages"; "max_tokens"; "stream"; "temperature"; "top_p"]} /\
    d !! "model" = Some (VStr "google/deplot") /\
    d !! "messages" = Some (VList msgs) /\
    Forall2 (is_user_message str_other) chunk msgs /\
    d !! "stream" = Some (VBool false) /\
    d !! "max_tokens" = Some (default (VInt 500) (kwargs !! "max_tokens")) /\
    d !! "temperature"
      = Some (default (VFloat (S754_finite false 4503599627370496 (-53)))
                      (kwargs !! "temperature")) /\
    d !! "top_p"
      = Some (default (VFloat (S754_finite false 8106479329266893 (-53)))
                      (kwargs !! "top_p")).

(** ['choices'] is missing from a response, or empty as [not choices]
    tests it. *)
Definition choices_missing_or_empty (json_response : dict) : Prop :=
  match json_response !! "choices" with
  | None => True
  | Some choices => py_bool choices = Ok false
  end.

(** ** One inference call, end to end *)

(** A loop in [M]; the first exception aborts it. *)
Fixpoint mapM_M {A B} (f : A -> M B) (l : list A) : M (list B) :=
  match l with
  | [] => mret []
  | x :: l' =>
      y ← f x;
      ys ← mapM_M f l';
      mret (y :: ys)
  end.

(** Modelled from the spec: how the orchestrator, which is not part of the
    sources, puts the parsed results of the batches together: a parsed
    sequence (gRPC) contributes its strings, a parsed string (HTTP)
    contributes itself. *)
Definition collect (parsed : value) : list value :=
  match parsed with
  | VList l => l
  | v => [v]
  end.

(** Modelled from the spec: the orchestrator that runs the four stages for
    one inference call is not part of the sources.  Per the specification
    it calls prepare, format, parse and postprocess in this order, sends
    each request batch to the inference service ([infer]) in chunk order,
    and concatenates the parsed results of the batches in that order. *)
Definition run_inference (base64_to_numpy : value -> result ndarray)
    (str_other : value -> string) (infer : value -> value)
    (data : loc) (protocol : string) (max_batch_size : Z) (kwargs : dict) : M value :=
  data ← prepare_data_for_inference base64_to_numpy data;
  formatted ← format_input str_other data protocol max_batch_size kwargs;
  batches ← lift (as_list formatted);
  parsed ← mapM_M (fun batch => parse_output str_other (infer batch) protocol) batches;
  process_inference_results (VList (concat (collect <$> parsed))) protocol.

(** Modelled from the spec: the inference service is an external
    collaborator.  Over gRPC the response to a batch is a sequence with one
    byte string per image of the batch: [answer] of the pixel values of
    that image. *)
Definition grpc_service (answer : list float32 -> list byte) (batch : value) : value :=
  match batch with
  | VArr a => VList (map (fun row => VBytes (answer row)) (rows a))
  | _ => VNone
  end.

(** Modelled from the spec: over HTTP the response to a payload is a JSON
    object that holds one result string, [reply] of the payload, at
    [choices[0].message.content]. *)
Definition http_service (reply : value -> string) (payload : value) : value :=
  VDict (<["choices" :=
            VList [VDict (<["message" :=
                             VDict (<["content" := VStr (reply payload)]> ∅)]> ∅)]]> ∅).

(** ** Sample inputs *)

(** A 1x1 RGB image, a decoder that yields it for every string, and a
    mapping with two encoded images. *)
Definition sample_image : ndarray :=
  {| shape := [1; 1; 3]%nat; buf := U8 [x00; x80; xff] |}.

Definition sample_decoder (b64 : value) : result ndarray :=
  match b64 with
  | VStr _ => Ok sample_image
  | _ => Raise TypeError
  end.

Definition sample_str (v : value) : string := "<object>".

Definition sample_data : dict :=
  <["base64_images" := VList [VStr "QQ=="; VStr "Qg=="]]> ∅.

Definition sample_store : store := <[1%positive := sample_data]> ∅.

(** The sample mapping once prepared, and a mapping that already holds an
    ['image_arrays'] entry. *)
Definition prepared_store : store :=
  with_image_arrays sample_store 1%positive [sample_image; sample_image].

Definition stale_store : store :=
  <[1%positive := <["image_arrays" := VStr "stale"]> sample_data]> ∅.

(** A well-formed HTTP response, and a gRPC response with the three kinds
    of elements. *)
Definition sample_response : dict :=
  <["choices" := VList [VDict (<["message" := VDict (<["content" := VStr "42,17"]> ∅)]> ∅)]]> ∅.

Definition sample_items : list value :=
  [VBytes [x61; x62]; VList [VBytes [x61]; VBytes [xc3; xa9]]; VStr "zz"].

(** A 1x2 RGB image, a mapping prepared with images of two shapes, one
    prepared with no image, one with neither key, one whose
    ['base64_images'] is a string, and one with both keys. *)
Definition wide_image : ndarray :=
  {| shape := [1; 2; 3]%nat; buf := U8 [x00; x01; x02; x03; x04; x05] |}.

Definition mixed_store : store :=
  with_image_arrays sample_store 1%positive [sample_image; wide_image].

Definition empty_store : store :=
  with_image_arrays sample_store 1%positive [].

Definition no_key_store : store := <[1%positive := ∅]> ∅.

Definition bad_type_store : store :=
  <[1%positive := <["base64_images" := VStr "QQ=="]> ∅]> ∅.

Definition both_keys_store : store :=
  <[1%positive := <["base64_image" := VStr "Qw=="]>
                  (<["image_arrays" := VList []]> sample_data)]> ∅.

(** ** The loop body of lines 108-113 on a heap of buffers *)

(** The division of line 112 is done in place.  Here an array object is a
    shape and a reference to the buffer it views, and buffers live in a
    heap, so that a view shares its buffer with the array it was taken
    from and a write to a buffer is seen through every array on it. *)
Record array_obj := mk_array_obj { obj_shape : list nat; obj_buf : loc }.

Abbreviation heap := (gmap loc buffer).

#[export] Instance buffer_inhabited : Inhabited buffer := populate (U8 []).

(** The array that an object stands for in a heap. *)
Definition contents (h : heap) (r : array_obj) : ndarray :=
  {| shape := obj_shape r; buf := h !!! obj_buf r |}.

(** [np.expand_dims(arr, axis=0)]: a view on the same buffer. *)
Definition expand_dims_view (r : array_obj) : array_obj :=
  {| obj_shape := 1%nat :: obj_shape r; obj_buf := obj_buf r |}.

(** [arr.astype(np.float32)]: a new buffer. *)
Definition astype_float32_copy (r : array_obj) (h : heap) : array_obj * heap :=
  let l := fresh (dom h) in
  ({| obj_shape := obj_shape r; obj_buf := l |},
   <[l := F32 (f32_items (h !!! obj_buf r))]> h).

(** [arr /= d]: the buffer of [arr] is overwritten. *)
Definition itruediv_in_place (r : array_obj) (d : float32) (h : heap)
  : result unit * heap :=
  match h !!! obj_buf r with
  | F32 items => (Ok tt, <[obj_buf r := F32 (map (fun x => f32_div x d) items)]> h)
  | U8 _ => (Raise TypeError, h)
  end.

Definition process_image_in_place (arr : array_obj) (h : heap)
  : result array_obj * heap :=
  let arr := if Nat.eqb (length (obj_shape arr)) 3 then expand_dims_view arr else arr in
  let '(arr, h) := astype_float32_copy arr h in
  match itruediv_in_place arr f32_255 h with
  | (Ok _, h) => (Ok arr, h)
  | (Raise e, h) => (Raise e, h)
  end.

(** A mapping with the single key, one with an empty list of images, one
    that holds decoded arrays and no encoded string, a batch of two images
    in one array, and a decoder that knows one string only. *)
Definition single_store : store :=
  <[1%positive := <["base64_image" := VStr "QQ=="]> ∅]> ∅.

Definition empty_list_store : store :=
  <[1%positive := <["base64_images" := VList []]> ∅]> ∅.

Definition arrays_only_store : store :=
  <[1%positive := <["image_arrays" := VList [VArr sample_image]]> ∅]> ∅.

Definition batched_image : ndarray :=
  {| shape := [2; 1; 1; 3]%nat; buf := U8 [x00; x01; x02; x03; x04; x05] |}.

Definition strict_decoder (b64 : value) : result ndarray :=
  match b64 with
  | VStr "QQ==" => Ok sample_image
  | _ => Raise (ValueError "not an image")
  end.

(** ** Pixel values *)

(** The binary32 value that lines 111-112 give a pixel of an 8-bit image,
    the strict order of binary32 numbers, and a list in which every number
    is below all those that follow it. *)
Definition scaled_pixel (p : byte) : float32 := f32_div (f32_of_byte p) f32_255.

Definition f32_ltb (x y : float32) : bool := SFltb x y.

Fixpoint f32_increasing (l : list float32) : bool :=
  match l with
  | [] => true
  | x :: l' => forallb (f32_ltb x) l' && f32_increasing l'
  end.

(** The scaled values of the pixel values 0, 1, ..., 255. *)
Definition scaled_pixels : list float32 :=
  map (fun n => f32_div (f32_of_Z (Z.of_nat n)) f32_255) (seq 0 256).

(** An exception of class [ValueError]. *)
Definition is_ValueError (e : exn) : Prop := exists msg, e = ValueError msg.

(** A mapping with one encoded image in a list, one that holds an image and
    a batch of two, one whose ['image_arrays'] holds a string, and a second
    mapping with the arrays of the prepared one and other strings. *)
Definition one_string_store : store :=
  <[1%positive := <["base64_images" := VList [VStr "QQ=="]]> ∅]> ∅.

Definition batched_store : store :=
  <[1%positive := <["image_arrays" := VList [VArr sample_image; VArr batched_image]]> ∅]> ∅.

Definition non_array_store : store :=
  <[1%positive := <["image_arrays" := VList [VArr sample_image; VStr "QQ=="]]> ∅]> ∅.

Definition other_store : store :=
  <[2%positive := <["image_arrays" := VList [VArr sample_image; VArr sample_image]]>
                  (<["base64_image" := VStr "Qw=="]> ∅)]> ∅.

(** The encoded images that [prepare_data_for_inference] reads from a
    mapping: the list under ['base64_images'] when the key is there, else
    the one value under ['base64_image']. *)
Definition base64_inputs (d : dict) : option (list value) :=
  match d !! "base64_images" with
  | Some (VList l) => Some l
  | Some _ => None
  | None =>
      match d !! "base64_image" with
      | Some b64 => Some [b64]
      | None => None
      end
  end.

(** An image of [float32] values outside the range of 8-bit pixels, 510 and
    -255, and a mapping that holds it. *)
Definition float_image : ndarray :=
  {| shape := [1; 1; 2]%nat; buf := F32 [f32_of_Z 510; f32_of_Z (-255)] |}.

Definition float_store : store :=
  <[1%positive := <["image_arrays" := VList [VArr float_image]]> ∅]> ∅.

(** * Properties *)

(** ** Chunking *)

Section chunking.
Context {A : Type}.
Implicit Types (lst : list A) (C i : Z).

Lemma py_slice_take_drop lst i C :
    0 <= i -> 0 < C ->
    py_slice lst i (i + C) = take (Z.to_nat C) (drop (Z.to_nat i) lst).
  Proof.
    intros Hi HC. unfold py_slice, clamp_index.
    rewrite !bool_decide_eq_false_2 by lia.
    destruct (Z.le_gt_cases (Z.of_nat (length lst)) i) as [Hle | Hlt].
    - rewrite !Z.min_r by lia.
      rewrite (drop_ge lst (Z.to_nat i)) by lia.
      rewrite (drop_ge lst (Z.to_nat (Z.of_nat (length lst)))) by lia.
      by rewrite !take_nil.
    - rewrite (Z.min_l i) by lia.
      destruct (Z.le_gt_cases (i + C) (Z.of_nat (length lst))).
      + rewrite Z.min_l by lia. f_equal. lia.
      + rewrite Z.min_r by lia.
        rewrite !take_ge; [done | rewrite length_drop; lia .. ].
  Qed.

Lemma range_up_chunks_concat lst C fuel i :
    0 < C -> 0 <= i ->
    (Z.to_nat (Z.of_nat (length lst) - i) <= fuel)%nat ->
    concat (map (fun i => py_slice lst i (i + C))
                (range_up fuel i (Z.of_nat (length lst)) C))
    = drop (Z.to_nat i) lst.
  Proof.
    intros HC. revert i. induction fuel as [| fuel IH]; intros i Hi Hfuel.
    - simpl. rewrite drop_ge; [done | lia].
    - simpl. case_bool_decide as Hlt.
      + simpl. rewrite IH by lia.
        rewrite py_slice_take_drop by lia.
        replace (Z.to_nat (i + C)) with (Z.to_nat i + Z.to_nat C)%nat by lia.
        rewrite <- drop_drop. apply take_drop.
      + simpl. rewrite drop_ge; [done | lia].
  Qed.

Lemma range_up_length fuel i n C :
    0 < C -> (Z.to_nat (n - i) <= fuel)%nat ->
    Z.of_nat (length (range_up fuel i n C)) = Z.max 0 (ceil_div (n - i) C).
  Proof.
    intros HC. revert i. induction fuel as [| fuel IH]; intros i Hfuel.
    - simpl. unfold ceil_div.
      assert ((n - i + C - 1) / C <= 0); [| lia].
      apply Z.lt_succ_r, Z.div_lt_upper_bound; lia.
    - simpl. unfold ceil_div in *. case_bool_decide as Hlt.
      + simpl length. rewrite Nat2Z.inj_succ, IH by lia.
        replace (n - i + C - 1) with ((n - (i + C) + C - 1) + 1 * C) by lia.
        rewrite Z.div_add by lia.
        assert (0 <= (n - (i + C) + C - 1) / C); [| lia].
        apply Z.div_pos; lia.
      + simpl.
        assert ((n - i + C - 1) / C <= 0); [| lia].
        apply Z.lt_succ_r, Z.div_lt_upper_bound; lia.
  Qed.

Lemma range_up_bounds fuel i n C :
    0 < C -> 0 <= i ->
    Forall (fun j => 0 <= j < n) (range_up fuel i n C).
  Proof.
    intros HC. revert i. induction fuel as [| fuel IH]; intros i Hi; simpl.
    - constructor.
    - case_bool_decide; [| constructor].
      constructor; [lia | apply IH; lia].
  Qed.

Lemma py_slice_length lst i C :
    0 <= i < Z.of_nat (length lst) -> 0 < C ->
    (0 < length (py_slice lst i (i + C)) <= Z.to_nat C)%nat.
  Proof.
    intros Hi HC. rewrite py_slice_take_drop by lia.
    rewrite length_take, length_drop. lia.
  Qed.

  (** The chunks of a list, for a positive chunk size: the call returns,
      there are [ceil(N / C)] chunks, none is empty or longer than [C], and
      their concatenation is the list. *)
Lemma chunk_list_spec lst C :
    0 < C ->
    exists chunks,
      chunk_list lst C = Ok chunks /\
      Z.of_nat (length chunks) = ceil_div (Z.of_nat (length lst)) C /\
      Forall (fun c => (0 < length c <= Z.to_nat C)%nat) chunks /\
      concat chunks = lst.
  Proof.
    intros HC. unfold chunk_list, py_range.
    rewrite bool_decide_eq_false_2, bool_decide_eq_true_2 by lia.
    eexists. split; [reflexivity |]. split; [| split].
    - rewrite length_map, range_up_length by lia.
      rewrite Z.sub_0_r. apply Z.max_r. unfold ceil_div.
      apply Z.div_pos; lia.
    - rewrite Forall_map.
      eapply Forall_impl; [apply range_up_bounds; lia |].
      intros j Hj. simpl in *. apply py_slice_length; lia.
    - rewrite range_up_chunks_concat by lia. done.
  Qed.

  (** A zero chunk size is refused by [range]; a negative one gives no
      chunk at all. *)
Lemma chunk_list_zero lst :
    chunk_list lst 0 = Raise (ValueError "range() arg 3 must not be zero").
  Proof. reflexivity. Qed.

Lemma chunk_list_negative lst C : C < 0 -> chunk_list lst C = Ok [].
  Proof.
    intros HC. unfold chunk_list, py_range.
    rewrite (bool_decide_eq_false_2 (C = 0)) by lia.
    rewrite (bool_decide_eq_false_2 (0 < C)) by lia.
    replace (Z.to_nat (0 - Z.of_nat (length lst))) with 0%nat by lia.
    reflexivity.
  Qed.
End chunking.

(** [ceil_div n c] is the least [q] with [n <= q * c]. *)
Lemma ceil_div_spec (n c : Z) :
  0 < c -> (ceil_div n c - 1) * c < n <= ceil_div n c * c.
Proof.
  intros Hc. unfold ceil_div.
  pose proof (Z.div_mod (n + c - 1) c) as Hdiv.
  pose proof (Z.mod_pos_bound (n + c - 1) c Hc) as Hmod.
  nia.
Qed.

Example chunk_list_5_2 :
  chunk_list [1; 2; 3; 4; 5] 2 = Ok [[1; 2]; [3; 4]; [5]].
Proof. reflexivity. Qed.

Example repr_shapes_ex :
  repr_shapes [[2; 2; 3]; [4]; []]%nat = "[(2, 2, 3), (4,), ()]".
Proof. reflexivity. Qed.


(** ** Loops that may raise *)

Lemma mapM_result_Forall {A B} (f : A -> result B) (g : A -> B) (l : list A) :
  Forall (fun x => f x = Ok (g x)) l -> mapM_result f l = Ok (map g l).
Proof.
  induction 1 as [| x l Hx _ IH]; simpl; [done |].
  by rewrite Hx, IH.
Qed.

Lemma mapM_result_fmap {A B C} (f : B -> result C) (h : A -> B) (l : list A) :
  mapM_result f (h <$> l) = mapM_result (fun x => f (h x)) l.
Proof.
  induction l as [| x l IH]; csimpl; [done |].
  destruct (f (h x)); [| done]. by rewrite IH.
Qed.

(** ** Slices and chunks of a mapped list *)

Lemma py_slice_map {A B} (f : A -> B) (l : list A) (i j : Z) :
  py_slice (map f l) i j = map f (py_slice l i j).
Proof.
  unfold py_slice. rewrite length_map.
  change (map f) with (fmap (M := list) f).
  by rewrite fmap_take, fmap_drop.
Qed.

Lemma chunk_list_map {A B} (f : A -> B) (l : list A) (C : Z) :
  chunk_list (map f l) C = map (map f) <$> chunk_list l C.
Proof.
  unfold chunk_list. rewrite length_map.
  destruct (py_range 0 (Z.of_nat (length l)) C) as [idx |]; simpl; [| done].
  f_equal. rewrite map_map. apply map_ext. intros i. apply py_slice_map.
Qed.

(** ** Rows of a concatenation *)

Lemma rows_of_concat (w : nat) (l : list (list float32)) :
  Forall (fun r => length r = w) l ->
  map (fun j => take w (drop (j * w) (concat l))) (seq 0 (length l)) = l.
Proof.
  induction 1 as [| r l Hr _ IH]; [done |].
  simpl length. rewrite <- cons_seq, <- fmap_S_seq. simpl.
  f_equal.
  - rewrite drop_0. by apply take_app_length'.
  - rewrite <- IH at 2. rewrite <- list_fmap_compose.
    apply map_ext. intros j. simpl.
    replace (w + j * w)%nat with (length r + j * w)%nat by lia.
    by rewrite <- drop_drop, drop_app_length.
Qed.

(** ** The gRPC branch of [format_input] *)

Lemma process_image_processed (a : ndarray) :
  process_image (VArr a) = Ok (processed_image a).
Proof.
  unfold process_image, processed_image, promote, normalize, np_itruediv.
  destruct (Nat.eqb (ndim a) 3); reflexivity.
Qed.

Lemma process_images (imgs : list ndarray) :
  mapM_result process_image (VArr <$> imgs) = Ok (map processed_image imgs).
Proof.
  rewrite mapM_result_fmap. apply mapM_result_Forall, Forall_forall.
  intros a _. apply process_image_processed.
Qed.

Lemma concat_buffers_processed (chunk : list ndarray) :
  chunk <> [] ->
  concat_buffers (map buf (map processed_image chunk)) = F32 (concat (map normalize chunk)).
Proof.
  intros Hne. unfold concat_buffers.
  destruct chunk as [| a chunk]; [done |]. simpl. f_equal. f_equal.
  rewrite !map_map. reflexivity.
Qed.

(** A chunk of processed images of the same dimensions is concatenated
    into one batch. *)
Lemma np_concatenate_processed (dims : list nat) (chunk : list ndarray) :
  chunk <> [] ->
  Forall (fun a => exists B, promote a = B :: dims) chunk ->
  np_concatenate (map processed_image chunk) = Ok (batch_of dims chunk).
Proof.
  intros Hne Hdims. destruct chunk as [| a0 rest]; [done |].
  assert (Hall : Forall (fun p => shape p <> [] /\ tail (shape p) = dims)
                   (map processed_image (a0 :: rest))).
  { rewrite Forall_map. eapply Forall_impl; [exact Hdims |].
    intros a [B HB]. simpl. rewrite HB. done. }
  unfold np_concatenate, batch_of.
  cbn [map] in *.
  inversion Hall as [| p ps [Hp0 Hpd] Hrest]; subst p ps.
  rewrite Forall_forall in Hall. rewrite Forall_forall in Hrest.
  assert (Hex : existsb (fun a => Nat.eqb (ndim a) 0)
                  (processed_image a0 :: map processed_image rest) = false).
  { apply not_true_is_false. intros Hex.
    apply existsb_exists in Hex as (p & Hin & Hz).
    apply Nat.eqb_eq in Hz. apply list_elem_of_In in Hin.
    destruct (Hall p Hin) as [Hsh _]. unfold ndim in Hz.
    destruct (shape p); [done | discriminate]. }
  rewrite Hex.
  assert (Hnd : forallb (fun a => Nat.eqb (ndim a) (ndim (processed_image a0)))
                  (map processed_image rest) = true).
  { apply forallb_forall. intros p Hin. apply Nat.eqb_eq.
    apply list_elem_of_In in Hin. destruct (Hrest p Hin) as [Hsh Ht].
    unfold ndim. destruct (shape p) as [| x sp]; [done |].
    destruct (shape (processed_image a0)) as [| y s0]; [done |].
    simpl in *. congruence. }
  rewrite Hnd.
  assert (Htl : forallb (fun a => bool_decide (tail (shape a) = tail (shape (processed_image a0))))
                  (map processed_image rest) = true).
  { apply forallb_forall. intros p Hin. apply bool_decide_eq_true_2.
    apply list_elem_of_In in Hin. destruct (Hrest p Hin) as [_ Ht]. congruence. }
  rewrite Htl. cbn [negb]. rewrite Hpd. f_equal. f_equal.
  - f_equal. simpl. f_equal. rewrite map_map. reflexivity.
  - by apply (concat_buffers_processed (a0 :: rest)).
Qed.

Lemma existsb_false_Forall {A} (f : A -> bool) (l : list A) :
  Forall (fun x => f x = false) l -> existsb f l = false.
Proof.
  induction 1 as [| x l Hx _ IH]; simpl; [done |]. by rewrite Hx, IH.
Qed.

Lemma Forall_concat_inv {A} (P : A -> Prop) (ls : list (list A)) :
  Forall P (concat ls) -> Forall (Forall P) ls.
Proof.
  induction ls as [| l ls IH]; simpl; [constructor |].
  rewrite Forall_app. intros [Hl Hls]. constructor; auto.
Qed.

(** On a non-empty list of images of the same dimensions, and for a
    positive batch size, the gRPC branch returns one batch per chunk. *)
Lemma format_input_grpc_batches (dims : list nat) (imgs : list ndarray) (C : Z) :
  imgs <> [] ->
  Forall (fun a => exists B, promote a = B :: dims) imgs ->
  0 < C ->
  exists chunks,
    chunk_list imgs C = Ok chunks /\
    format_input_grpc (VList (VArr <$> imgs)) C = Ok (map (batch_of dims) chunks).
Proof.
  intros Hne Hdims HC.
  destruct (chunk_list_spec imgs C HC) as (chunks & Hchunks & _ & Hsizes & Hcat).
  exists chunks. split; [done |].
  unfold format_input_grpc. cbn [as_list mbind result_bind].
  rewrite process_images. cbn [mbind result_bind].
  destruct (map processed_image imgs) as [| p0 ps] eqn:Hps.
  { by destruct imgs. }
  rewrite existsb_false_Forall.
  - rewrite <- Hps, chunk_list_map, Hchunks. cbn [fmap result_fmap mbind result_bind].
    change (map (map processed_image) chunks) with (map processed_image <$> chunks).
    rewrite mapM_result_fmap.
    apply mapM_result_Forall.
    rewrite <- Hcat in Hdims. apply Forall_concat_inv in Hdims.
    eapply Forall_impl; [apply Forall_and; split; [exact Hdims | exact Hsizes] |].
    intros chunk [Hd Hs]. simpl. apply np_concatenate_processed; [| done].
    intros ->. simpl in Hs. lia.
  - destruct imgs as [| a0 rest]; [done |].
    injection Hps as <- <-.
    inversion Hdims as [| ? ? [B0 HB0] Hrest]; subst.
    simpl. rewrite map_map, Forall_map.
    eapply Forall_impl; [exact Hrest |].
    intros a [B HB]. simpl. apply bool_decide_eq_false_2.
    rewrite HB, HB0. simpl. auto.
Qed.

(** ** Running the operations on a store *)

Section properties.

Variable base64_to_numpy : value -> result ndarray.
Variable str_other : value -> string.

Implicit Types (σ : store) (data : loc) (kwargs : dict) (C : Z).

(** Runs a computation of [M] on a store: unfolds the monad, and rewrites
    with the lookups known from the context. *)
Ltac run_M :=
  unfold mbind, M_bind, mret, M_ret, lift, raise, dict_contains,
    dict_getitem, dict_setitem;
  repeat first
    [ match goal with
      | H : ?x = Some _ |- context [?x] => rewrite H
      | H : ?x = None |- context [?x] => rewrite H
      end
    | progress cbn -[format_input_grpc format_input_http mapM_result
                     _extract_content_from_deplot_response lookup_total insert] ].

Lemma format_input_no_arrays σ data protocol C kwargs :
  (σ !!! data) !! "image_arrays" = None ->
  format_input str_other data protocol C kwargs σ = (Raise PreconditionError, σ).
Proof. intros Hd. unfold format_input. run_M. done. Qed.

Lemma format_input_grpc_run σ data C kwargs v :
  (σ !!! data) !! "image_arrays" = Some v ->
  format_input str_other data "grpc" C kwargs σ
  = ((fun bs => VList (VArr <$> bs)) <$> format_input_grpc v C, σ).
Proof.
  intros Hd. unfold format_input. run_M.
  destruct (format_input_grpc v C); done.
Qed.

Lemma format_input_http_many σ data C kwargs v base64_list :
  (σ !!! data) !! "image_arrays" = Some v ->
  (σ !!! data) !! "base64_images" = Some base64_list ->
  format_input str_other data "http" C kwargs σ
  = (VList <$> format_input_http str_other base64_list C kwargs, σ).
Proof.
  intros Hd Hb. unfold format_input. run_M.
  destruct (format_input_http _ _ _ _); done.
Qed.

Lemma format_input_http_single σ data C kwargs v b64 :
  (σ !!! data) !! "image_arrays" = Some v ->
  (σ !!! data) !! "base64_images" = None ->
  (σ !!! data) !! "base64_image" = Some b64 ->
  format_input str_other data "http" C kwargs σ
  = (VList <$> format_input_http str_other (VList [b64]) C kwargs, σ).
Proof.
  intros Hd Hn Hb. unfold format_input. run_M.
  destruct (format_input_http _ _ _ _); done.
Qed.

(** ** Formatting for gRPC: batches, errors and pixel values *)

Lemma length_f32_items (b : buffer) : length (f32_items b) = buffer_length b.
Proof. destruct b; simpl; [apply length_map | done]. Qed.

Lemma length_normalize (a : ndarray) :
  wf_array a -> length (normalize a) = num_elements (shape a).
Proof.
  intros Hwf. unfold normalize. by rewrite length_map, length_f32_items.
Qed.

Lemma promote_image (a : ndarray) (H W Ch : nat) :
  shape a = [H; W; Ch] -> promote a = [1; H; W; Ch]%nat.
Proof. intros Hs. unfold promote, ndim. by rewrite Hs. Qed.


Lemma batch_rows_of_images (H W Ch : nat) (chunk : list ndarray) :
  Forall (fun a => shape a = [H; W; Ch]) chunk ->
  foldr Nat.add 0%nat (map (fun a => hd 0%nat (promote a)) chunk) = length chunk.
Proof.
  induction 1 as [| a chunk Ha _ IH]; simpl; [done |].
  by rewrite (promote_image a H W Ch Ha), IH.
Qed.

Lemma rows_batch_of (H W Ch : nat) (chunk : list ndarray) :
  Forall (fun a => shape a = [H; W; Ch] /\ wf_array a) chunk ->
  rows (batch_of [H; W; Ch] chunk) = map normalize chunk.
Proof.
  intros Hchunk. unfold rows, batch_of. cbn [shape buf hd tail f32_items].
  rewrite (batch_rows_of_images H W Ch).
  2: { eapply Forall_impl; [exact Hchunk |]. by intros a [? ?]. }
  rewrite <- (length_map normalize chunk).
  apply rows_of_concat. rewrite Forall_map.
  eapply Forall_impl; [exact Hchunk |].
  intros a [Hs Hwf]. simpl. rewrite length_normalize by done. by rewrite Hs.
Qed.

(** The batches of a list of images of one shape, and their rows. *)
Lemma format_input_grpc_images σ data kwargs (imgs : list ndarray)
    (H W Ch : nat) (C : Z) :
  (σ !!! data) !! "image_arrays" = Some (VList (VArr <$> imgs)) ->
  imgs <> [] ->
  Forall (fun a => shape a = [H; W; Ch] /\ wf_array a) imgs ->
  0 < C ->
  exists chunks,
    chunk_list imgs C = Ok chunks /\
    format_input str_other data "grpc" C kwargs σ
      = (Ok (VList (VArr <$> map (batch_of [H; W; Ch]) chunks)), σ) /\
    Forall (fun chunk => shape (batch_of [H; W; Ch] chunk) = [length chunk; H; W; Ch])
           chunks /\
    concat (map rows (map (batch_of [H; W; Ch]) chunks)) = map normalize imgs.
Proof.
  intros Hd Hne Himgs HC.
  destruct (format_input_grpc_batches [H; W; Ch] imgs C Hne) as (chunks & Hchunks & Hfmt);
    [| done |].
  { eapply Forall_impl; [exact Himgs |]. intros a [Hs _]. exists 1%nat.
    by apply promote_image. }
  exists chunks. split; [done |].
  rewrite (format_input_grpc_run _ _ _ _ _ Hd), Hfmt. split; [done |].
  destruct (chunk_list_spec imgs C HC) as (chunks' & Hchunks' & _ & _ & Hcat).
  assert (chunks' = chunks) as -> by congruence.
  rewrite <- Hcat in Himgs. apply Forall_concat_inv in Himgs. split.
  - eapply Forall_impl; [exact Himgs |].
    intros chunk Hc. simpl. rewrite (batch_rows_of_images H W Ch); [done |].
    eapply Forall_impl; [exact Hc |]. by intros a [? ?].
  - rewrite <- Hcat, map_map, concat_map. f_equal.
    clear -Himgs. induction Himgs as [| chunk chunks Hc _ IH]; simpl; [done |].
    by rewrite IH, (rows_batch_of H W Ch chunk Hc).
Qed.


Lemma existsb_false_inv {A} (f : A -> bool) (l : list A) :
  existsb f l = false -> Forall (fun x => f x = false) l.
Proof.
  induction l as [| x l IH]; simpl; [constructor |].
  intros [Hx Hl]%orb_false_elim. constructor; auto.
Qed.

Lemma format_input_grpc_empty (C : Z) :
  format_input_grpc (VList []) C = Raise EmptyInputError.
Proof. reflexivity. Qed.

Lemma format_input_grpc_mismatch (imgs : list ndarray) (C : Z) (a b : ndarray) :
  a ∈ imgs -> b ∈ imgs -> image_dims a <> image_dims b ->
  format_input_grpc (VList (VArr <$> imgs)) C
  = Raise (ShapeMismatchError (map image_dims imgs)).
Proof.
  intros Ha Hb Hne. unfold format_input_grpc. cbn [as_list mbind result_bind].
  rewrite process_images. cbn [mbind result_bind].
  destruct imgs as [| a0 rest]; [by apply elem_of_nil in Ha |].
  cbn [map tail].
  destruct (existsb _ _) eqn:Hex.
  - unfold ShapeMismatchError. do 3 f_equal.
    rewrite map_map. reflexivity.
  - exfalso. apply existsb_false_inv in Hex.
    rewrite map_map, Forall_map in Hex.
    assert (Hall : forall x, x ∈ a0 :: rest -> image_dims x = image_dims a0).
    { intros x [-> | Hx]%elem_of_cons; [done |].
      rewrite Forall_forall in Hex. specialize (Hex x Hx). simpl in Hex.
      apply bool_decide_eq_false in Hex. by apply dec_stable in Hex. }
    rewrite (Hall a Ha), (Hall b Hb) in Hne. done.
Qed.

(** C3. Errors of gRPC formatting: on an empty image list [format_input]
    raises the empty-input error, and on a list that holds two images whose
    (H, W, C) dimensions differ it raises the shape-mismatch error (with
    the dimensions found); no batch is returned, whatever the batch size. *)
Theorem grpc_format_shape_errors σ data kwargs (C : Z) (imgs : list ndarray) :
  (σ !!! data) !! "image_arrays" = Some (VList (VArr <$> imgs)) ->
  (imgs = [] ->
   format_input str_other data "grpc" C kwargs σ = (Raise EmptyInputError, σ)) /\
  (forall a b, a ∈ imgs -> b ∈ imgs -> image_dims a <> image_dims b ->
   format_input str_other data "grpc" C kwargs σ
   = (Raise (ShapeMismatchError (map image_dims imgs)), σ)).
Proof.
  intros Hd. rewrite (format_input_grpc_run _ _ _ _ _ Hd). split.
  - intros ->. reflexivity.
  - intros a b Ha Hb Hne. by rewrite (format_input_grpc_mismatch imgs C a b).
Qed.


Lemma normalize_u8 (a : ndarray) (px : list byte) :
  buf a = U8 px ->
  normalize a = map (fun p => f32_div (f32_of_byte p) f32_255) px.
Proof. intros Hb. unfold normalize. rewrite Hb. simpl. by rewrite map_map. Qed.


(** ** Preparing the input mapping *)

Lemma prepare_missing σ data :
  (σ !!! data) !! "base64_images" = None ->
  (σ !!! data) !! "base64_image" = None ->
  prepare_data_for_inference base64_to_numpy data σ = (Raise MissingInputError, σ).
Proof. intros Hm Hs. unfold prepare_data_for_inference. run_M. done. Qed.

Lemma prepare_not_a_list σ data v :
  (σ !!! data) !! "base64_images" = Some v ->
  (forall l, v <> VList l) ->
  prepare_data_for_inference base64_to_numpy data σ = (Raise InvalidInputTypeError, σ).
Proof.
  intros Hm Hv. unfold prepare_data_for_inference. run_M.
  destruct v; try done. by destruct (Hv l).
Qed.

Lemma prepare_many σ data l :
  (σ !!! data) !! "base64_images" = Some (VList l) ->
  prepare_data_for_inference base64_to_numpy data σ
  = match mapM_result base64_to_numpy l with
    | Ok arrs => (Ok data, with_image_arrays σ data arrs)
    | Raise e => (Raise e, σ)
    end.
Proof.
  intros Hm. unfold prepare_data_for_inference. run_M.
  destruct (mapM_result base64_to_numpy l); done.
Qed.

Lemma prepare_single σ data b64 :
  (σ !!! data) !! "base64_images" = None ->
  (σ !!! data) !! "base64_image" = Some b64 ->
  prepare_data_for_inference base64_to_numpy data σ
  = match base64_to_numpy b64 with
    | Ok arr => (Ok data, with_image_arrays σ data [arr])
    | Raise e => (Raise e, σ)
    end.
Proof.
  intros Hm Hs. unfold prepare_data_for_inference. run_M.
  destruct (base64_to_numpy b64); done.
Qed.

(** C4. Input errors of [prepare_data_for_inference]: a mapping with
    neither ['base64_image'] nor ['base64_images'] raises the missing-input
    error, and a mapping whose ['base64_images'] value is not a list raises
    the invalid-input-type error; the mapping is left as it was. *)
Theorem prepare_input_errors σ data :
  ((σ !!! data) !! "base64_image" = None ->
   (σ !!! data) !! "base64_images" = None ->
   prepare_data_for_inference base64_to_numpy data σ = (Raise MissingInputError, σ)) /\
  (forall v, (σ !!! data) !! "base64_images" = Some v ->
             (forall l, v <> VList l) ->
   prepare_data_for_inference base64_to_numpy data σ = (Raise InvalidInputTypeError, σ)).
Proof.
  split.
  - intros Hs Hm. by apply prepare_missing.
  - intros v Hm Hv. by apply (prepare_not_a_list σ data v).
Qed.

(** ** Formatting for HTTP *)

Lemma format_input_http_payloads (l : list value) C kwargs :
  format_input_http str_other (VList l) C kwargs
  = map (payload_of str_other kwargs) <$> chunk_list l C.
Proof.
  unfold format_input_http. cbn [as_list mbind result_bind].
  destruct (chunk_list l C); reflexivity.
Qed.

Lemma deplot_message_is_user_message (b64_img : value) :
  is_user_message str_other b64_img (deplot_message str_other b64_img).
Proof.
  eexists. split; [reflexivity |]. split; [| split; reflexivity].
  rewrite !dom_insert_L, dom_empty_L. set_solver.
Qed.

Lemma payload_of_is_deplot_payload kwargs (chunk : list value) :
  is_deplot_payload str_other kwargs chunk (payload_of str_other kwargs chunk).
Proof.
  eexists _, _. split; [reflexivity |]. split.
  { rewrite !dom_insert_L, dom_empty_L. set_solver. }
  split; [reflexivity |]. split; [reflexivity |]. split.
  { apply Forall2_fmap_r, Forall_Forall2_diag, Forall_forall.
    intros b _. apply deplot_message_is_user_message. }
  unfold kwargs_get. repeat split; by destruct (kwargs !! _).
Qed.

(** C6. Formatting for HTTP: the encoded strings read from the mapping (the
    list under ['base64_images'], else the one string under
    ['base64_image']), not the decoded arrays, are cut in order into
    [ceil(N / max_batch_size)] chunks of at most [max_batch_size]; each
    chunk becomes one payload with the model identifier, [stream] false,
    one user message per image (the instruction followed by the image as a
    data URI), and the generation parameters, which default to 500, 0.5 and
    0.9. *)
Theorem http_format_payloads σ data kwargs (image_arrays : value)
    (b64s : list value) (C : Z) :
  (σ !!! data) !! "image_arrays" = Some image_arrays ->
  ((σ !!! data) !! "base64_images" = Some (VList b64s) \/
   ((σ !!! data) !! "base64_images" = None /\
    exists b, (σ !!! data) !! "base64_image" = Some b /\ b64s = [b])) ->
  0 < C ->
  exists chunks payloads,
    format_input str_other data "http" C kwargs σ = (Ok (VList payloads), σ) /\
    Z.of_nat (length chunks) = ceil_div (Z.of_nat (length b64s)) C /\
    Forall (fun c => (0 < length c <= Z.to_nat C)%nat) chunks /\
    concat chunks = b64s /\
    Forall2 (is_deplot_payload str_other kwargs) chunks payloads.
Proof.
  intros Hd Hb HC.
  destruct (chunk_list_spec b64s C HC) as (chunks & Hchunks & Hlen & Hsizes & Hcat).
  exists chunks, (map (payload_of str_other kwargs) chunks).
  split; [| split; [done | split; [done | split; [done |]]]].
  - destruct Hb as [Hm | (Hn & b & Hs & ->)].
    + rewrite (format_input_http_many _ _ _ _ _ _ Hd Hm).
      by rewrite format_input_http_payloads, Hchunks.
    + rewrite (format_input_http_single _ _ _ _ _ _ Hd Hn Hs).
      by rewrite format_input_http_payloads, Hchunks.
  - apply Forall2_fmap_r, Forall_Forall2_diag, Forall_forall.
    intros chunk _. apply payload_of_is_deplot_payload.
Qed.

(** C10. Key precedence: when the mapping holds both ['base64_images'] and
    ['base64_image'], [prepare_data_for_inference] decodes the list under
    ['base64_images'] and nothing else, and the HTTP payloads are built
    from the chunks of that list only; the value under ['base64_image']
    plays no part. *)
Theorem plural_key_takes_precedence σ data kwargs (l : list value)
    (single image_arrays : value) (C : Z) :
  (σ !!! data) !! "base64_images" = Some (VList l) ->
  (σ !!! data) !! "base64_image" = Some single ->
  prepare_data_for_inference base64_to_numpy data σ
  = match mapM_result base64_to_numpy l with
    | Ok arrs => (Ok data, with_image_arrays σ data arrs)
    | Raise e => (Raise e, σ)
    end /\
  ((σ !!! data) !! "image_arrays" = Some image_arrays ->
   format_input str_other data "http" C kwargs σ
   = ((fun chunks => VList (map (payload_of str_other kwargs) chunks))
        <$> chunk_list l C, σ)).
Proof.
  intros Hm Hs. split.
  - by apply prepare_many.
  - intros Hd. rewrite (format_input_http_many _ _ _ _ _ _ Hd Hm).
    rewrite format_input_http_payloads.
    by destruct (chunk_list l C).
Qed.

(** ** Effects of the operations on the store *)

Lemma with_image_arrays_lookup σ data arrs :
  with_image_arrays σ data arrs !!! data
  = <["image_arrays" := VList (VArr <$> arrs)]> (σ !!! data).
Proof. unfold with_image_arrays. by rewrite lookup_total_insert_eq. Qed.

Lemma with_image_arrays_other σ data arrs (l : loc) :
  l <> data -> with_image_arrays σ data arrs !! l = σ !! l.
Proof. intros Hl. unfold with_image_arrays. by rewrite lookup_insert_ne. Qed.

Lemma with_image_arrays_entry σ data arrs (k : string) :
  k <> "image_arrays" ->
  (with_image_arrays σ data arrs !!! data) !! k = (σ !!! data) !! k.
Proof.
  intros Hk. rewrite with_image_arrays_lookup. by rewrite lookup_insert_ne.
Qed.

Lemma with_image_arrays_twice σ data arrs :
  with_image_arrays (with_image_arrays σ data arrs) data arrs
  = with_image_arrays σ data arrs.
Proof.
  unfold with_image_arrays at 1. rewrite with_image_arrays_lookup.
  rewrite insert_insert_eq. unfold with_image_arrays.
  by rewrite insert_insert_eq.
Qed.

(** What [prepare_data_for_inference] does, by the keys of the mapping. *)
Lemma prepare_cases σ data :
  prepare_data_for_inference base64_to_numpy data σ
  = match (σ !!! data) !! "base64_images" with
    | Some (VList l) =>
        match mapM_result base64_to_numpy l with
        | Ok arrs => (Ok data, with_image_arrays σ data arrs)
        | Raise e => (Raise e, σ)
        end
    | Some _ => (Raise InvalidInputTypeError, σ)
    | None =>
        match (σ !!! data) !! "base64_image" with
        | Some b64 =>
            match base64_to_numpy b64 with
            | Ok arr => (Ok data, with_image_arrays σ data [arr])
            | Raise e => (Raise e, σ)
            end
        | None => (Raise MissingInputError, σ)
        end
    end.
Proof.
  destruct ((σ !!! data) !! "base64_images") as [v |] eqn:Hm.
  - destruct v; try (by apply (prepare_not_a_list σ data _ Hm)).
    by apply prepare_many.
  - destruct ((σ !!! data) !! "base64_image") as [b |] eqn:Hs.
    + by apply prepare_single.
    + by apply prepare_missing.
Qed.

Lemma prepare_idempotent σ data :
  let '(r, σ') := prepare_data_for_inference base64_to_numpy data σ in
  prepare_data_for_inference base64_to_numpy data σ' = (r, σ').
Proof.
  rewrite (prepare_cases σ).
  destruct ((σ !!! data) !! "base64_images") as [v |] eqn:Hm.
  - destruct v; try (by apply (prepare_not_a_list σ data _ Hm)).
    destruct (mapM_result base64_to_numpy l) as [arrs | e] eqn:Hl.
    + rewrite prepare_cases, with_image_arrays_entry, Hm, Hl by done.
      by rewrite with_image_arrays_twice.
    + by rewrite prepare_cases, Hm, Hl.
  - destruct ((σ !!! data) !! "base64_image") as [b |] eqn:Hs.
    + destruct (base64_to_numpy b) as [arr | e] eqn:Hb.
      * rewrite prepare_cases, !with_image_arrays_entry, Hm, Hs, Hb by done.
        by rewrite with_image_arrays_twice.
      * by rewrite prepare_cases, Hm, Hs, Hb.
    + by apply prepare_missing.
Qed.

Lemma format_input_store σ data protocol C kwargs :
  (format_input str_other data protocol C kwargs σ).2 = σ.
Proof.
  unfold format_input.
  destruct ((σ !!! data) !! "image_arrays") as [v |] eqn:Hd; run_M; [| done].
  destruct (String.eqb protocol "grpc").
  { by destruct (format_input_grpc v C). }
  destruct (String.eqb protocol "http"); [| done].
  destruct ((σ !!! data) !! "base64_images") as [l |] eqn:Hm; run_M.
  { by destruct (format_input_http str_other l C kwargs). }
  destruct ((σ !!! data) !! "base64_image") as [b |] eqn:Hs; run_M; [| done].
  by destruct (format_input_http str_other (VList [b]) C kwargs).
Qed.

Lemma parse_output_store σ response protocol :
  (parse_output str_other response protocol σ).2 = σ.
Proof.
  unfold parse_output. run_M.
  repeat match goal with
         | |- context [match ?x with _ => _ end] => destruct x; run_M; try done
         end.
Qed.

Lemma prepare_outcome σ data :
  (exists arrs, prepare_data_for_inference base64_to_numpy data σ
                = (Ok data, with_image_arrays σ data arrs)) \/
  (exists e, prepare_data_for_inference base64_to_numpy data σ = (Raise e, σ)).
Proof.
  rewrite prepare_cases.
  destruct ((σ !!! data) !! "base64_images") as [v |].
  - destruct v; eauto. destruct (mapM_result base64_to_numpy l); eauto.
  - destruct ((σ !!! data) !! "base64_image") as [b |]; eauto.
    destruct (base64_to_numpy b); eauto.
Qed.

Lemma mapM_result_Ok_inv {A B} (f : A -> result B) (l : list A) (ys : list B) :
  mapM_result f l = Ok ys -> Forall2 (fun x y => f x = Ok y) l ys.
Proof.
  revert ys. induction l as [| x l IH]; intros ys; simpl.
  - intros [= <-]. constructor.
  - destruct (f x) as [y |] eqn:Hx; [| done].
    destruct (mapM_result f l) as [ys' |]; [| done].
    intros [= <-]. constructor; [done | by apply IH].
Qed.

(** When it returns, the arrays stored are the encoded images of the
    mapping, decoded one by one in their order. *)
Lemma prepare_decoded σ data :
  (exists strings arrs,
     base64_inputs (σ !!! data) = Some strings /\
     Forall2 (fun b64 a => base64_to_numpy b64 = Ok a) strings arrs /\
     prepare_data_for_inference base64_to_numpy data σ
     = (Ok data, with_image_arrays σ data arrs)) \/
  (exists e, prepare_data_for_inference base64_to_numpy data σ = (Raise e, σ)).
Proof.
  rewrite prepare_cases. unfold base64_inputs.
  destruct ((σ !!! data) !! "base64_images") as [v |].
  - destruct v; eauto.
    destruct (mapM_result base64_to_numpy l) as [arrs |] eqn:Hdec; eauto.
    left. exists l, arrs. split; [done |]. split; [| done].
    by apply mapM_result_Ok_inv.
  - destruct ((σ !!! data) !! "base64_image") as [b |]; eauto.
    destruct (base64_to_numpy b) as [a |] eqn:Hdec; eauto.
    left. exists [b], [a]. split; [done |]. split; [| done].
    by repeat constructor.
Qed.

(** The results depend on the store through the mapping only. *)
Lemma prepare_same_mapping σ σ2 data :
  σ2 !!! data = σ !!! data ->
  (prepare_data_for_inference base64_to_numpy data σ2).1
  = (prepare_data_for_inference base64_to_numpy data σ).1.
Proof.
  intros Heq. rewrite !prepare_cases, Heq.
  destruct ((σ !!! data) !! "base64_images") as [v |].
  - destruct v; try done. by destruct (mapM_result base64_to_numpy l).
  - destruct ((σ !!! data) !! "base64_image") as [b |]; [| done].
    by destruct (base64_to_numpy b).
Qed.

Lemma format_input_same_mapping σ σ2 data protocol C kwargs :
  σ2 !!! data = σ !!! data ->
  format_input str_other data protocol C kwargs σ2
  = ((format_input str_other data protocol C kwargs σ).1, σ2).
Proof.
  intros Heq.
  assert (Hk : forall k, (σ2 !!! data) !! k = (σ !!! data) !! k)
    by (intros k; by rewrite Heq).
  unfold format_input.
  pose proof (Hk "image_arrays") as Hd2.
  destruct ((σ !!! data) !! "image_arrays") as [v |] eqn:Hd; run_M; [| done].
  destruct (String.eqb protocol "grpc").
  { by destruct (format_input_grpc v C). }
  destruct (String.eqb protocol "http"); [| done].
  pose proof (Hk "base64_images") as Hm2.
  destruct ((σ !!! data) !! "base64_images") as [l |] eqn:Hm; run_M.
  { by destruct (format_input_http str_other l C kwargs). }
  pose proof (Hk "base64_image") as Hs2.
  destruct ((σ !!! data) !! "base64_image") as [b |] eqn:Hs; run_M; [| done].
  by destruct (format_input_http str_other (VList [b]) C kwargs).
Qed.

Lemma parse_output_any_store σ σ2 response protocol :
  parse_output str_other response protocol σ2
  = ((parse_output str_other response protocol σ).1, σ2).
Proof.
  unfold parse_output.
  destruct (String.eqb protocol "grpc").
  { run_M. destruct (as_list response) as [items |]; run_M; [| done].
    by destruct (mapM_result (parse_item str_other) items). }
  destruct (String.eqb protocol "http"); [| done].
  by destruct response.
Qed.

(** The loop body on a heap: the division in place writes to the buffer
    that [astype] allocated; every buffer that was in the heap is as
    before, and the array returned holds what [process_image] computes. *)
Lemma process_image_in_place_fresh (arr : array_obj) (h : heap) :
  exists arr' h',
    process_image_in_place arr h = (Ok arr', h') /\
    (obj_buf arr' ∉ dom h) /\
    (forall l, l ∈ dom h -> h' !! l = h !! l) /\
    process_image (VArr (contents h arr)) = Ok (contents h' arr').
Proof.
  unfold process_image_in_place, astype_float32_copy, itruediv_in_place.
  set (arr1 := if Nat.eqb (length (obj_shape arr)) 3 then expand_dims_view arr else arr).
  set (l := fresh (dom h)).
  assert (Hl : l ∉ dom h) by apply is_fresh.
  cbn [obj_buf]. rewrite lookup_total_insert_eq.
  eexists _, _. split; [reflexivity |]. split; [exact Hl |]. split.
  - intros l' Hl'. rewrite insert_insert_eq, lookup_insert_ne; [done |].
    intros ->. done.
  - rewrite process_image_processed.
    unfold contents, processed_image, promote, normalize, ndim. cbn [shape buf obj_shape obj_buf].
    rewrite lookup_total_insert_eq. f_equal.
    subst arr1. by destruct (Nat.eqb (length (obj_shape arr)) 3).
Qed.

(** C9, as amended.  The operations keep no state of their own: what they
    return depends on their arguments and on the contents of the mapping
    only, and calling [prepare_data_for_inference] again gives the same
    result and the same store.  [format_input], [parse_output] and
    [process_inference_results] change nothing in the store, and the last
    returns its argument; the division in place of [format_input] writes to
    a buffer of its own and to no buffer of the caller.
    [prepare_data_for_inference] changes the store in one place: when it
    returns, it returns the mapping it was given, with the entry
    ['image_arrays'] set (whatever it held before) to the list of the
    decoded arrays, one per encoded image of the mapping, each the result
    of [base64_to_numpy] on that image, in their order; the other entries
    of the mapping and the other objects are as before, and nothing changes
    when it raises. *)
Theorem operations_effects σ data protocol C kwargs response output :
  (exists r σ',
     prepare_data_for_inference base64_to_numpy data σ = (r, σ') /\
     (forall l, l <> data -> σ' !! l = σ !! l) /\
     (forall k, k <> "image_arrays" -> (σ' !!! data) !! k = (σ !!! data) !! k) /\
     match r with
     | Ok d =>
         d = data /\
         exists strings arrs,
           base64_inputs (σ !!! data) = Some strings /\
           Forall2 (fun b64 a => base64_to_numpy b64 = Ok a) strings arrs /\
           σ' = with_image_arrays σ data arrs /\
           (σ' !!! data) !! "image_arrays" = Some (VList (VArr <$> arrs))
     | Raise _ => σ' = σ
     end /\
     prepare_data_for_inference base64_to_numpy data σ' = (r, σ')) /\
  (forall σ2, σ2 !!! data = σ !!! data ->
     (prepare_data_for_inference base64_to_numpy data σ2).1
     = (prepare_data_for_inference base64_to_numpy data σ).1 /\
     format_input str_other data protocol C kwargs σ2
     = ((format_input str_other data protocol C kwargs σ).1, σ2)) /\
  (forall σ2, parse_output str_other response protocol σ2
              = ((parse_output str_other response protocol σ).1, σ2)) /\
  (format_input str_other data protocol C kwargs σ).2 = σ /\
  (forall (arr : array_obj) (h : heap),
     exists arr' h',
       process_image_in_place arr h = (Ok arr', h') /\
       (forall l, l ∈ dom h -> h' !! l = h !! l) /\
       process_image (VArr (contents h arr)) = Ok (contents h' arr')) /\
  (parse_output str_other response protocol σ).2 = σ /\
  process_inference_results output protocol σ = (Ok output, σ).
Proof.
  split; [| split; [| split; [| split; [| split; [| split]]]]].
  - pose proof (prepare_idempotent σ data) as Hidem.
    destruct (prepare_decoded σ data) as [(strings & arrs & Hin & Hdec & Hp) | [e Hp]];
      rewrite Hp in Hidem.
    + exists (Ok data), (with_image_arrays σ data arrs).
      split; [done |]. split; [intros l Hl; by apply with_image_arrays_other |].
      split; [intros k Hk; by apply with_image_arrays_entry |].
      split; [| done]. split; [done |]. exists strings, arrs.
      split; [done |]. split; [done |]. split; [done |].
      rewrite with_image_arrays_lookup. apply lookup_insert_eq.
    + exists (Raise e), σ. done.
  - intros σ2 Heq. split.
    + by apply prepare_same_mapping.
    + by apply format_input_same_mapping.
  - intros σ2. apply parse_output_any_store.
  - apply format_input_store.
  - intros arr h.
    destruct (process_image_in_place_fresh arr h) as (arr' & h' & Hrun & _ & Hframe & Hval).
    eauto.
  - apply parse_output_store.
  - done.
Qed.

(** ** Parsing a response *)

Lemma parse_output_grpc_run σ (items : list value) :
  parse_output str_other (VList items) "grpc" σ
  = ((fun rs => VList (VStr <$> rs)) <$> mapM_result (parse_item str_other) items, σ).
Proof.
  unfold parse_output. run_M.
  destruct (mapM_result (parse_item str_other) items); done.
Qed.

Lemma parse_output_http_run σ (json_response : dict) :
  parse_output str_other (VDict json_response) "http" σ
  = (_extract_content_from_deplot_response json_response, σ).
Proof. reflexivity. Qed.

Lemma bytes_decode_valid (b : list byte) :
  utf8_valid b = true -> bytes_decode b = Ok (string_of_list_byte b).
Proof. intros Hb. unfold bytes_decode. by rewrite Hb. Qed.

Lemma parse_item_render (item : value) :
  item_ok item -> parse_item str_other item = Ok (render str_other item).
Proof.
  destruct item; try done; simpl.
  - apply bytes_decode_valid.
  - intros Hl.
    rewrite (mapM_result_Forall _ text_of); [done |].
    eapply Forall_impl; [exact Hl |].
    intros o (b & -> & Hb). by apply bytes_decode_valid.
Qed.

Lemma parse_output_grpc_render σ (items : list value) :
  Forall item_ok items ->
  parse_output str_other (VList items) "grpc" σ
  = (Ok (VList (VStr <$> map (render str_other) items)), σ).
Proof.
  intros Hitems. rewrite parse_output_grpc_run.
  rewrite (mapM_result_Forall _ (render str_other)); [done |].
  eapply Forall_impl; [exact Hitems |]. apply parse_item_render.
Qed.

(** C8. Parsing a gRPC response: on a response sequence whose byte strings
    are UTF-8 text, [parse_output] returns one string per element, in the
    order of the elements: for a list of byte strings, the texts of its
    members joined by one space; for a byte string, its text; for any other
    value, [str] of it. *)
Theorem grpc_parse_elementwise σ (items : list value) :
  Forall item_ok items ->
  exists results,
    parse_output str_other (VList items) "grpc" σ
      = (Ok (VList (VStr <$> results)), σ) /\
    length results = length items /\
    (forall i item, items !! i = Some item ->
                    results !! i = Some (render str_other item)).
Proof.
  intros Hitems. exists (map (render str_other) items).
  split; [by apply parse_output_grpc_render |].
  split; [by rewrite length_map |].
  intros i item Hi. by rewrite list_lookup_fmap, Hi.
Qed.

Lemma getitem_never_malformed (choices : value) :
  (first ← py_getitem_int choices 0;
   message ← py_getitem_str first "message";
   py_getitem_str message "content") <> Raise MalformedResponseError.
Proof.
  assert (Hstr : forall v k, py_getitem_str v k <> Raise MalformedResponseError).
  { intros v k. destruct v; simpl; try done. by destruct (d !! k). }
  assert (Hidx : forall A (l : list A) i (f : A -> value),
             f <$> py_index l i <> Raise MalformedResponseError).
  { intros A l i f. unfold py_index.
    destruct (bool_decide _); [| done]. by destruct (l !! _). }
  destruct (py_getitem_int choices 0) as [first | e] eqn:Hfirst.
  - cbn [mbind result_bind].
    destruct (py_getitem_str first "message") as [message | e] eqn:Hmsg.
    + cbn [mbind result_bind]. apply Hstr.
    + cbn [mbind result_bind]. rewrite <- Hmsg. apply Hstr.
  - cbn [mbind result_bind]. rewrite <- Hfirst. clear Hfirst.
    destruct choices; simpl; try done; try apply Hidx.
    + specialize (Hidx _ l 0 id). by destruct (py_index l 0).
    + destruct (shape a); [done |]. apply Hidx.
Qed.

(** C7. Parsing an HTTP response: when ['choices'] is a non-empty list
    whose first element holds [message.content], [parse_output] returns that
    content; and it raises the malformed-response error exactly when
    ['choices'] is missing or empty, where for a list "empty" is the empty
    list. *)
Theorem http_parse_choices σ (json_response : dict) :
  (forall first rest (m1 m2 : dict) content,
     json_response !! "choices" = Some (VList (first :: rest)) ->
     first = VDict m1 -> m1 !! "message" = Some (VDict m2) ->
     m2 !! "content" = Some content ->
     parse_output str_other (VDict json_response) "http" σ = (Ok content, σ)) /\
  (parse_output str_other (VDict json_response) "http" σ
   = (Raise MalformedResponseError, σ)
   <-> choices_missing_or_empty json_response) /\
  (forall l, json_response !! "choices" = Some (VList l) ->
             (choices_missing_or_empty json_response <-> l = [])).
Proof.
  rewrite parse_output_http_run.
  unfold _extract_content_from_deplot_response, choices_missing_or_empty.
  split; [| split].
  - intros first rest m1 m2 content -> -> Hm1 Hm2. simpl. rewrite Hm1.
    simpl. by rewrite Hm2.
  - destruct (json_response !! "choices") as [choices |]; [| done].
    destruct (py_bool choices) as [[|] | e] eqn:Hb; cbn [mbind result_bind negb].
    + split; [| done]. intros [= H]. by apply getitem_never_malformed in H.
    + done.
    + split; [| done]. intros [= ->]. destruct choices; try done.
      simpl in Hb. by repeat case_match.
  - intros l ->. simpl. destruct l; split; done.
Qed.

(** ** One inference call *)

Lemma mapM_M_Forall {A B} (f : A -> M B) (g : A -> B) (l : list A) σ :
  Forall (fun x => f x σ = (Ok (g x), σ)) l ->
  mapM_M f l σ = (Ok (map g l), σ).
Proof.
  induction 1 as [| x l Hx _ IH]; [done |].
  cbn [mapM_M map]. unfold mbind, M_bind at 1. rewrite Hx.
  unfold mbind, M_bind at 1. by rewrite IH.
Qed.

Lemma run_inference_steps (infer : value -> value) (g : value -> value)
    σ σ1 data protocol C kwargs (batches : list value) :
  prepare_data_for_inference base64_to_numpy data σ = (Ok data, σ1) ->
  format_input str_other data protocol C kwargs σ1 = (Ok (VList batches), σ1) ->
  Forall (fun b => parse_output str_other (infer b) protocol σ1 = (Ok (g b), σ1))
         batches ->
  run_inference base64_to_numpy str_other infer data protocol C kwargs σ
  = (Ok (VList (concat (collect <$> map g batches))), σ1).
Proof.
  intros Hprep Hfmt Hparse. unfold run_inference.
  unfold mbind, M_bind at 1. rewrite Hprep.
  unfold mbind, M_bind at 1. rewrite Hfmt.
  unfold mbind, M_bind at 1. cbn [lift as_list].
  unfold mbind, M_bind at 1.
  by rewrite (mapM_M_Forall _ g _ _ Hparse).
Qed.

Lemma parse_output_grpc_service σ (answer : list float32 -> list byte) (a : ndarray) :
  (forall row, utf8_valid (answer row) = true) ->
  parse_output str_other (grpc_service answer (VArr a)) "grpc" σ
  = (Ok (VList (map (fun row => VStr (string_of_list_byte (answer row))) (rows a))), σ).
Proof.
  intros Hanswer. unfold grpc_service.
  rewrite parse_output_grpc_render.
  - by rewrite map_map, <- list_fmap_compose.
  - rewrite Forall_map. apply Forall_forall. intros row _. apply Hanswer.
Qed.

Lemma parse_output_http_service σ (reply : value -> string) (payload : value) :
  parse_output str_other (http_service reply payload) "http" σ
  = (Ok (VStr (reply payload)), σ).
Proof. reflexivity. Qed.

Lemma chunks_of_one {A} (chunks : list (list A)) :
  Forall (fun c => (0 < length c <= 1)%nat) chunks ->
  chunks = map (fun x => [x]) (concat chunks).
Proof.
  induction 1 as [| c chunks Hc _ IH]; [done |].
  destruct c as [| x [| y c]]; simpl in Hc; try lia.
  simpl. by rewrite <- IH.
Qed.

Lemma chunk_list_one {A} (l : list A) :
  chunk_list l 1 = Ok (map (fun x => [x]) l).
Proof.
  destruct (chunk_list_spec l 1) as (chunks & Hchunks & _ & Hsizes & Hcat); [lia |].
  rewrite Hchunks. f_equal. rewrite <- Hcat. by apply chunks_of_one.
Qed.

Lemma chunk_list_short {A} (lst : list A) C :
  lst <> [] -> Z.of_nat (length lst) <= C -> chunk_list lst C = Ok [lst].
Proof.
  intros Hne Hle.
  assert (HC : 0 < C) by (destruct lst; [done | simpl length in Hle; lia]).
  destruct (chunk_list_spec lst C HC) as (chunks & Hchunks & Hlen & _ & Hcat).
  pose proof (ceil_div_spec (Z.of_nat (length lst)) C HC) as Hceil.
  assert (length chunks = 1%nat) as Hone.
  { destruct lst; [done |]. simpl length in *. nia. }
  destruct chunks as [| chunk [| ? ?]]; try discriminate.
  simpl in Hcat. rewrite app_nil_r in Hcat. by rewrite Hchunks, Hcat.
Qed.

(** The number of chunks is the number of elements exactly when the chunks
    hold one element each or there is one element. *)
Lemma ceil_div_all (n C : Z) :
  0 < n -> 0 < C -> (ceil_div n C = n <-> C = 1 \/ n = 1).
Proof.
  intros Hn HC. pose proof (ceil_div_spec n C HC) as Hceil. split.
  - intros Heq. rewrite Heq in Hceil. nia.
  - intros [-> | ->]; nia.
Qed.

Lemma run_inference_http σ data kwargs (b64s : list value) (imgs : list ndarray)
    (chunks : list (list value)) (C : Z) (reply : value -> string) :
  (σ !!! data) !! "base64_images" = Some (VList b64s) ->
  mapM_result base64_to_numpy b64s = Ok imgs ->
  chunk_list b64s C = Ok chunks ->
  run_inference base64_to_numpy str_other (http_service reply) data "http" C kwargs σ
  = (Ok (VList (map (fun chunk => VStr (reply (payload_of str_other kwargs chunk)))
                    chunks)),
     with_image_arrays σ data imgs).
Proof.
  intros Hm Hdec Hchunks.
  rewrite (run_inference_steps _ (fun p => VStr (reply p)) σ
             (with_image_arrays σ data imgs) _ _ _ _
             (map (payload_of str_other kwargs) chunks)).
  - do 3 f_equal. clear. induction chunks as [| chunk chunks IH]; [done |].
    csimpl. by rewrite <- IH.
  - by rewrite (prepare_many σ data b64s Hm), Hdec.
  - rewrite (format_input_http_many _ _ _ _ (VList (VArr <$> imgs)) (VList b64s)).
    + by rewrite format_input_http_payloads, Hchunks.
    + rewrite with_image_arrays_lookup. apply lookup_insert_eq.
    + by rewrite with_image_arrays_entry.
  - apply Forall_forall. intros payload _. apply parse_output_http_service.
Qed.

(** C2, as amended.  One inference call on a mapping whose ['base64_images']
    decode to [N >= 1] images of one shape, with a positive
    [max_batch_size].  Over gRPC, with a service that answers one byte
    string per image of a batch, the call returns exactly one string per
    input image, the string at position [i] being the answer for image [i].
    Over HTTP, where the response holds one result string, the call returns
    one string per payload, [ceil(N / max_batch_size)] in all, the string
    at position [j] being the reply to the payload of chunk [j]; these are
    as many strings as images exactly when [max_batch_size] is 1 or there
    is one image, and then the string at position [i] is the reply to the
    payload of image [i] alone. *)
Theorem inference_round_trip σ data kwargs (b64s : list value)
    (imgs : list ndarray) (H W Ch : nat) (C : Z)
    (answer : list float32 -> list byte) (reply : value -> string) :
  (σ !!! data) !! "base64_images" = Some (VList b64s) ->
  mapM_result base64_to_numpy b64s = Ok imgs ->
  imgs <> [] ->
  Forall (fun a => shape a = [H; W; Ch] /\ wf_array a) imgs ->
  0 < C ->
  (forall row, utf8_valid (answer row) = true) ->
  run_inference base64_to_numpy str_other (grpc_service answer) data "grpc" C kwargs σ
  = (Ok (VList (map (fun img => VStr (string_of_list_byte (answer (normalize img))))
                    imgs)),
     with_image_arrays σ data imgs) /\
  (exists chunks results,
     chunk_list b64s C = Ok chunks /\
     Z.of_nat (length chunks) = ceil_div (Z.of_nat (length b64s)) C /\
     results = map (fun chunk => VStr (reply (payload_of str_other kwargs chunk))) chunks /\
     run_inference base64_to_numpy str_other (http_service reply) data "http" C kwargs σ
     = (Ok (VList results), with_image_arrays σ data imgs) /\
     (length results = length imgs <-> C = 1 \/ length imgs = 1%nat)) /\
  (C = 1 \/ length imgs = 1%nat ->
   run_inference base64_to_numpy str_other (http_service reply) data "http" C kwargs σ
   = (Ok (VList (map (fun b64 => VStr (reply (payload_of str_other kwargs [b64])))
                     b64s)),
      with_image_arrays σ data imgs)).
Proof.
  intros Hm Hdec Hne Himgs HC Hanswer.
  assert (Hlen : length b64s = length imgs)
    by (eapply Forall2_length, mapM_result_Ok_inv, Hdec).
  assert (HN : 0 < Z.of_nat (length b64s))
    by (rewrite Hlen; destruct imgs; [done | simpl length; lia]).
  split; [| split].
  - set (σ1 := with_image_arrays σ data imgs).
    assert (Hd : (σ1 !!! data) !! "image_arrays" = Some (VList (VArr <$> imgs))).
    { unfold σ1. rewrite with_image_arrays_lookup. apply lookup_insert_eq. }
    destruct (format_input_grpc_images σ1 data kwargs imgs H W Ch C)
      as (chunks & Hchunks & Hfmt & _ & Hrows); try done.
    rewrite (run_inference_steps _
               (fun b => match b with
                         | VArr a => VList (map (fun row => VStr (string_of_list_byte (answer row)))
                                                (rows a))
                         | _ => VNone
                         end) σ σ1 _ _ _ _ _
               ltac:(by rewrite (prepare_many σ data b64s Hm), Hdec) Hfmt).
    + do 3 f_equal.
      rewrite <- (map_map normalize
                    (fun row => VStr (string_of_list_byte (answer row))) imgs).
      rewrite <- Hrows.
      generalize (map (batch_of [H; W; Ch]) chunks). intros batches.
      induction batches as [| b batches IH]; [done |].
      csimpl. rewrite map_app. by rewrite <- IH.
    + rewrite Forall_fmap. apply Forall_forall. intros a _.
      by apply parse_output_grpc_service.
  - destruct (chunk_list_spec b64s C HC) as (chunks & Hchunks & Hchunks_len & _).
    exists chunks, (map (fun chunk => VStr (reply (payload_of str_other kwargs chunk))) chunks).
    split; [done |]. split; [done |]. split; [done |].
    split; [by apply (run_inference_http σ data kwargs b64s) |].
    rewrite length_map, <- Hlen.
    pose proof (ceil_div_all (Z.of_nat (length b64s)) C HN HC) as Hall.
    rewrite <- Hchunks_len in Hall. lia.
  - intros Hone.
    assert (Hchunks : chunk_list b64s C = Ok (map (fun x => [x]) b64s)).
    { destruct Hone as [-> | Hone]; [apply chunk_list_one |].
      rewrite <- Hlen in Hone.
      destruct b64s as [| b64 [| ? ?]]; try discriminate.
      apply chunk_list_short; [done | simpl; lia]. }
    rewrite (run_inference_http σ data kwargs b64s imgs _ C reply Hm Hdec Hchunks).
    by rewrite map_map.
Qed.

End properties.

(** ** The properties at sample inputs *)

(** C1, at an input where the bound on the images of a request fails.  The
    list holds an image of shape (1, 1, 3) and an array of shape
    (2, 1, 1, 3), which is a batch of two images, and [max_batch_size] is 2:
    the two arrays make one chunk, and [format_input] returns one batch of
    shape (3, 1, 1, 3), a request of three images.  [chunk_list] counts the
    elements of the list and [np.concatenate] adds their first dimensions,
    where the docstring of [format_input] gives [max_batch_size] as the
    maximum number of images per batch, with [B <= max_batch_size]. *)
Theorem grpc_batch_exceeds_max_batch_size :
  chunk_list [sample_image; batched_image] 2 = Ok [[sample_image; batched_image]] /\
  exists b,
    format_input sample_str 1%positive "grpc" 2 ∅ batched_store
      = (Ok (VList [VArr b]), batched_store) /\
    shape b = [3; 1; 1; 3]%nat /\
    length (rows b) = 3%nat /\
    2 < Z.of_nat (length (rows b)).
Proof.
  split; [reflexivity |].
  eexists. split; [vm_compute; reflexivity |]. split; [reflexivity |].
  split; [reflexivity | simpl; lia].
Qed.

(** C5, at an input where the bound on the values fails.  The list holds
    one float32 image of shape (1, 1, 2) with the values 510 and -255:
    [format_input] promotes it, keeps its values through the cast and
    divides them by 255 without clipping, and returns one batch of shape
    (1, 1, 1, 2) with the values 2 and -1, outside [0, 1], where the comment
    on the division reads [Normalize to [0,1]]. *)
Theorem grpc_normalization_out_of_range :
  format_input sample_str 1%positive "grpc" 1 ∅ float_store
  = (Ok (VList [VArr {| shape := [1; 1; 1; 2]%nat;
                        buf := F32 [f32_of_Z 2; f32_of_Z (-1)] |}]),
     float_store) /\
  in_unit_interval (f32_of_Z 2) = false /\
  in_unit_interval (f32_of_Z (-1)) = false.
Proof. split; [vm_compute; reflexivity |]. split; reflexivity. Qed.


Lemma inference_round_trip_witness :
  run_inference sample_decoder sample_str (grpc_service (fun _ => [x6f; x6b]))
    1%positive "grpc" 2 ∅ sample_store
  = (Ok (VList [VStr "ok"; VStr "ok"]), prepared_store) /\
  run_inference sample_decoder sample_str (http_service (fun _ => "table"))
    1%positive "http" 1 ∅ sample_store
  = (Ok (VList [VStr "table"; VStr "table"]), prepared_store).
Proof.
  pose proof (inference_round_trip sample_decoder sample_str sample_store 1%positive ∅
                [VStr "QQ=="; VStr "Qg=="] [sample_image; sample_image] 1 1 3)
    as Htrip.
  split.
  - apply (Htrip 2 (fun _ => [x6f; x6b]) (fun _ => "table"));
      [reflexivity | reflexivity | discriminate | repeat constructor | lia
      | intros; reflexivity].
  - apply (Htrip 1 (fun _ => [x6f; x6b]) (fun _ => "table"));
      [reflexivity | reflexivity | discriminate | repeat constructor | lia
      | intros; reflexivity | left; reflexivity].
Defined.

(** Over HTTP with a batch size of 2, two images give one payload, and the
    call returns one string for the two images. *)
Lemma http_round_trip_counterexample :
  length [VStr "QQ=="; VStr "Qg=="] = 2%nat /\
  (sample_store !!! 1%positive) !! "base64_images"
    = Some (VList [VStr "QQ=="; VStr "Qg=="]) /\
  (run_inference sample_decoder sample_str (http_service (fun _ => "table"))
     1%positive "http" 2 ∅ sample_store).1
  = Ok (VList [VStr "table"]).
Proof. repeat split. Qed.

Lemma grpc_format_shape_errors_witness :
  format_input sample_str 1%positive "grpc" 1 ∅ mixed_store
  = (Raise (ShapeMismatchError [[1; 1; 3]; [1; 2; 3]]%nat), mixed_store) /\
  format_input sample_str 1%positive "grpc" 1 ∅ empty_store
  = (Raise EmptyInputError, empty_store).
Proof.
  split.
  - apply (proj2 (grpc_format_shape_errors sample_str mixed_store 1%positive ∅ 1
                    [sample_image; wide_image] eq_refl) sample_image wide_image).
    + apply list_elem_of_here.
    + apply list_elem_of_further, list_elem_of_here.
    + discriminate.
  - apply (proj1 (grpc_format_shape_errors sample_str empty_store 1%positive ∅ 1
                    [] eq_refl)).
    reflexivity.
Defined.

Lemma prepare_input_errors_witness :
  prepare_data_for_inference sample_decoder 1%positive no_key_store
  = (Raise MissingInputError, no_key_store) /\
  prepare_data_for_inference sample_decoder 1%positive bad_type_store
  = (Raise InvalidInputTypeError, bad_type_store).
Proof.
  split.
  - apply (proj1 (prepare_input_errors sample_decoder no_key_store 1%positive));
      reflexivity.
  - apply (proj2 (prepare_input_errors sample_decoder bad_type_store 1%positive)
             (VStr "QQ==")); [reflexivity | discriminate].
Defined.


Lemma http_format_payloads_witness :
  exists chunks payloads,
    format_input sample_str 1%positive "http" 1 ∅ prepared_store
      = (Ok (VList payloads), prepared_store) /\
    Z.of_nat (length chunks) = ceil_div 2 1 /\
    Forall (fun c => (0 < length c <= Z.to_nat 1)%nat) chunks /\
    concat chunks = [VStr "QQ=="; VStr "Qg=="] /\
    Forall2 (is_deplot_payload sample_str ∅) chunks payloads.
Proof.
  apply (http_format_payloads sample_str prepared_store 1%positive ∅
           (VList (VArr <$> [sample_image; sample_image]))
           [VStr "QQ=="; VStr "Qg=="] 1).
  - reflexivity.
  - left. reflexivity.
  - lia.
Defined.

Lemma http_parse_choices_witness :
  parse_output sample_str (VDict sample_response) "http" sample_store
  = (Ok (VStr "42,17"), sample_store) /\
  parse_output sample_str (VDict (<["choices" := VList []]> ∅)) "http" sample_store
  = (Raise MalformedResponseError, sample_store).
Proof.
  split.
  - apply (proj1 (http_parse_choices sample_str sample_store sample_response)
             (VDict (<["message" := VDict (<["content" := VStr "42,17"]> ∅)]> ∅)) []
             (<["message" := VDict (<["content" := VStr "42,17"]> ∅)]> ∅)
             (<["content" := VStr "42,17"]> ∅) (VStr "42,17"));
      reflexivity.
  - apply (proj1 (proj2 (http_parse_choices sample_str sample_store
                           (<["choices" := VList []]> ∅)))).
    reflexivity.
Defined.

Lemma grpc_parse_elementwise_witness :
  exists results,
    parse_output sample_str (VList sample_items) "grpc" sample_store
      = (Ok (VList (VStr <$> results)), sample_store) /\
    length results = length sample_items /\
    (forall i item, sample_items !! i = Some item ->
                    results !! i = Some (render sample_str item)).
Proof.
  apply (grpc_parse_elementwise sample_str sample_store sample_items).
  repeat constructor; eexists; split; reflexivity.
Defined.

(** A mapping with [base64_images = []] gains an ['image_arrays'] entry,
    and a mapping that already holds one has it overwritten: the argument
    of [prepare_data_for_inference] is not left as it was. *)
Lemma prepare_modifies_its_argument :
  (sample_store !!! 1%positive) !! "image_arrays" = None /\
  ((prepare_data_for_inference sample_decoder 1%positive sample_store).2
     !!! 1%positive) !! "image_arrays"
  = Some (VList [VArr sample_image; VArr sample_image]) /\
  (stale_store !!! 1%positive) !! "image_arrays" = Some (VStr "stale") /\
  ((prepare_data_for_inference sample_decoder 1%positive stale_store).2
     !!! 1%positive) !! "image_arrays"
  = Some (VList [VArr sample_image; VArr sample_image]).
Proof. repeat split. Qed.

Lemma plural_key_takes_precedence_witness :
  prepare_data_for_inference sample_decoder 1%positive both_keys_store
  = (Ok 1%positive,
     with_image_arrays both_keys_store 1%positive [sample_image; sample_image]) /\
  format_input sample_str 1%positive "http" 2 ∅ both_keys_store
  = (Ok (VList [payload_of sample_str ∅ [VStr "QQ=="; VStr "Qg=="]]), both_keys_store).
Proof.
  pose proof (plural_key_takes_precedence sample_decoder sample_str both_keys_store
                1%positive ∅ [VStr "QQ=="; VStr "Qg=="] (VStr "Qw==") (VList []) 2
                eq_refl eq_refl) as [Hprep Hfmt].
  split; [exact Hprep | exact (Hfmt eq_refl)].
Defined.

(** The examples of the specification: two images and a batch size of 1
    give two batches of one image each. *)
Example two_single_image_batches :
  format_input sample_str 1%positive "grpc" 1 ∅ prepared_store
  = (Ok (VList [VArr (batch_of [1; 1; 3]%nat [sample_image]);
                VArr (batch_of [1; 1; 3]%nat [sample_image])]),
     prepared_store)
  /\ shape (batch_of [1; 1; 3]%nat [sample_image]) = [1; 1; 1; 3]%nat.
Proof. split; reflexivity. Qed.

Example sample_pixels_normalized :
  normalize sample_image
  = [S754_zero false; S754_finite false 8421505 (-24); S754_finite false 8388608 (-23)].
Proof. reflexivity. Qed.

Example sample_items_parsed :
  (parse_output sample_str (VList sample_items) "grpc" sample_store).1
  = Ok (VList [VStr "ab"; VStr (string_of_list_byte [x61; x20; xc3; xa9]); VStr "zz"]).
Proof. reflexivity. Qed.

Example invalid_utf8_raises :
  (parse_output sample_str (VList [VBytes [x61; xff]]) "grpc" sample_store).1
  = Raise UnicodeDecodeError.
Proof. reflexivity. Qed.

Example unknown_protocol_raises :
  (format_input sample_str 1%positive "rest" 1 ∅ prepared_store).1
  = Raise UnsupportedProtocolError.
Proof. reflexivity. Qed.

Example format_before_prepare_raises :
  (format_input sample_str 1%positive "grpc" 1 ∅ sample_store).1
  = Raise PreconditionError.
Proof. reflexivity. Qed.

(** * Further properties of the interface *)

(** ** The layout of the chunks *)

Lemma range_up_lookup (fuel : nat) (i n C : Z) (k : nat) :
  0 < C -> (Z.to_nat (n - i) <= fuel)%nat ->
  i + Z.of_nat k * C < n ->
  range_up fuel i n C !! k = Some (i + Z.of_nat k * C).
Proof.
  intros HC. revert i k. induction fuel as [| fuel IH]; intros i k Hfuel Hk.
  - nia.
  - simpl. rewrite bool_decide_eq_true_2 by nia.
    destruct k as [| k]; simpl.
    + f_equal. lia.
    + rewrite IH by nia. f_equal. lia.
Qed.

Lemma chunk_list_lookup {A} (lst : list A) (C : Z) (chunks : list (list A)) (k : nat) :
  0 < C -> chunk_list lst C = Ok chunks -> (k < length chunks)%nat ->
  chunks !! k = Some (take (Z.to_nat C) (drop (k * Z.to_nat C) lst)).
Proof.
  intros HC Hchunks Hk.
  destruct (chunk_list_spec lst C HC) as (chunks' & Hchunks' & Hlen & _).
  assert (chunks' = chunks) as -> by congruence.
  pose proof (ceil_div_spec (Z.of_nat (length lst)) C HC) as Hceil.
  unfold chunk_list, py_range in Hchunks.
  rewrite bool_decide_eq_false_2, bool_decide_eq_true_2 in Hchunks by lia.
  cbn [mbind result_bind] in Hchunks. injection Hchunks as <-.
  change (map ?f ?l) with (f <$> l). rewrite list_lookup_fmap.
  rewrite (range_up_lookup _ 0 _ C k) by nia.
  cbn [fmap option_fmap option_map]. f_equal.
  rewrite py_slice_take_drop by lia. do 2 f_equal. lia.
Qed.

(** X1. The layout of the chunks, for a positive chunk size [C]: chunk [k]
    is the [C] elements of the list from position [k * C] on (fewer at the
    end of the list); every chunk but the last holds exactly [C] elements;
    and a non-empty list of at most [C] elements is one chunk. *)
Theorem chunk_list_layout {A} (lst : list A) (C : Z) :
  0 < C ->
  exists chunks,
    chunk_list lst C = Ok chunks /\
    (forall k, (k < length chunks)%nat ->
               chunks !! k = Some (take (Z.to_nat C) (drop (k * Z.to_nat C) lst))) /\
    (forall k chunk, (S k < length chunks)%nat -> chunks !! k = Some chunk ->
                     length chunk = Z.to_nat C) /\
    (lst <> [] -> Z.of_nat (length lst) <= C -> chunks = [lst]).
Proof.
  intros HC.
  destruct (chunk_list_spec lst C HC) as (chunks & Hchunks & Hlen & Hsizes & Hcat).
  pose proof (ceil_div_spec (Z.of_nat (length lst)) C HC) as Hceil.
  exists chunks. split; [done |]. split; [| split].
  - intros k Hk. by apply chunk_list_lookup.
  - intros k chunk Hk Hchunk.
    rewrite (chunk_list_lookup lst C chunks k HC Hchunks) in Hchunk by lia.
    injection Hchunk as <-. rewrite length_take, length_drop. nia.
  - intros Hne Hle.
    assert (length chunks = 1%nat) as Hone.
    { destruct lst; [done |]. simpl length in *. nia. }
    destruct chunks as [| chunk [| ? ?]]; try discriminate.
    simpl in Hcat. rewrite app_nil_r in Hcat. by rewrite Hcat.
Qed.

Lemma chunk_list_layout_witness :
  exists chunks,
    chunk_list [1; 2; 3; 4; 5] 2 = Ok chunks /\
    (forall k, (k < length chunks)%nat ->
               chunks !! k = Some (take (Z.to_nat 2) (drop (k * Z.to_nat 2) [1; 2; 3; 4; 5]))) /\
    (forall k chunk, (S k < length chunks)%nat -> chunks !! k = Some chunk ->
                     length chunk = Z.to_nat 2) /\
    ([1; 2; 3; 4; 5] <> [] -> Z.of_nat (length [1; 2; 3; 4; 5]) <= 2 ->
     chunks = [[1; 2; 3; 4; 5]]).
Proof. apply (chunk_list_layout [1; 2; 3; 4; 5] 2). lia. Defined.

Section further.

Variable base64_to_numpy : value -> result ndarray.
Variable str_other : value -> string.

Implicit Types (σ : store) (data : loc) (kwargs : dict) (C : Z).

(** ** Batch sizes that are not positive *)

(** Once the images are processed and agree on their dimensions, what
    remains of the gRPC branch is the chunking and the concatenations. *)
Lemma format_input_grpc_checked (dims : list nat) (imgs : list ndarray) C :
  imgs <> [] ->
  Forall (fun a => exists B, promote a = B :: dims) imgs ->
  format_input_grpc (VList (VArr <$> imgs)) C
  = chunk_list (map processed_image imgs) C ≫= mapM_result np_concatenate.
Proof.
  intros Hne Hdims.
  unfold format_input_grpc. cbn [as_list mbind result_bind].
  rewrite process_images. cbn [mbind result_bind].
  destruct (map processed_image imgs) as [| p0 ps] eqn:Hps.
  { by destruct imgs. }
  rewrite existsb_false_Forall; [done |].
  destruct imgs as [| a0 rest]; [done |].
  injection Hps as <- <-.
  inversion Hdims as [| ? ? [B0 HB0] Hrest]; subst.
  simpl. rewrite map_map, Forall_map.
  eapply Forall_impl; [exact Hrest |].
  intros a [B HB]. simpl. apply bool_decide_eq_false_2.
  rewrite HB, HB0. simpl. auto.
Qed.

(** X2. A batch size that is not positive is not refused by the interface
    itself: on valid images, a batch size of 0 makes [format_input] fail
    with the [ValueError] of [range], for both protocols, and a negative
    batch size makes it return no batch and no payload at all, without any
    error. *)
Theorem format_nonpositive_batch_size σ data kwargs (imgs : list ndarray)
    (dims : list nat) (b64s : list value) C :
  (σ !!! data) !! "image_arrays" = Some (VList (VArr <$> imgs)) ->
  (σ !!! data) !! "base64_images" = Some (VList b64s) ->
  imgs <> [] ->
  Forall (fun a => exists B, promote a = B :: dims) imgs ->
  (C = 0 ->
   format_input str_other data "grpc" C kwargs σ
   = (Raise (ValueError "range() arg 3 must not be zero"), σ) /\
   format_input str_other data "http" C kwargs σ
   = (Raise (ValueError "range() arg 3 must not be zero"), σ)) /\
  (C < 0 ->
   format_input str_other data "grpc" C kwargs σ = (Ok (VList []), σ) /\
   format_input str_other data "http" C kwargs σ = (Ok (VList []), σ)).
Proof.
  intros Hd Hm Hne Hdims.
  rewrite (format_input_grpc_run _ _ _ _ _ _ Hd).
  rewrite (format_input_http_many _ _ _ _ _ _ _ Hd Hm).
  rewrite (format_input_grpc_checked dims imgs C Hne Hdims).
  rewrite format_input_http_payloads.
  split.
  - intros ->. by rewrite !chunk_list_zero.
  - intros HC. by rewrite !chunk_list_negative.
Qed.

Ltac run_store :=
  unfold mbind, M_bind, mret, M_ret, lift, raise, dict_contains,
    dict_getitem, dict_setitem;
  repeat first
    [ match goal with
      | H : ?x = Some _ |- context [?x] => rewrite H
      | H : ?x = None |- context [?x] => rewrite H
      end
    | progress cbn -[format_input_grpc format_input_http mapM_result
                     _extract_content_from_deplot_response lookup_total insert] ].

(** ** Empty input *)

Lemma chunk_list_nil {A} C : C <> 0 -> chunk_list (@nil A) C = Ok [].
Proof.
  intros HC. unfold chunk_list, py_range.
  rewrite (bool_decide_eq_false_2 (C = 0)) by done.
  by destruct (bool_decide (0 < C)).
Qed.

(** X3. An empty list of images: [prepare_data_for_inference] accepts it
    and stores an empty list of arrays; on the prepared mapping the HTTP
    branch of [format_input] returns no payload, for every batch size but
    0, where the gRPC branch raises the empty-input error. *)
Theorem empty_image_list σ data kwargs C :
  (σ !!! data) !! "base64_images" = Some (VList []) ->
  C <> 0 ->
  let σ' := with_image_arrays σ data [] in
  prepare_data_for_inference base64_to_numpy data σ = (Ok data, σ') /\
  format_input str_other data "http" C kwargs σ' = (Ok (VList []), σ') /\
  format_input str_other data "grpc" C kwargs σ' = (Raise EmptyInputError, σ').
Proof.
  intros Hm HC σ'.
  assert (Hd : (σ' !!! data) !! "image_arrays" = Some (VList (VArr <$> []))).
  { unfold σ'. rewrite with_image_arrays_lookup. apply lookup_insert_eq. }
  assert (Hm' : (σ' !!! data) !! "base64_images" = Some (VList [])).
  { unfold σ'. by rewrite with_image_arrays_entry. }
  split; [| split].
  - by rewrite (prepare_many base64_to_numpy σ data [] Hm).
  - rewrite (format_input_http_many _ _ _ _ _ _ _ Hd Hm').
    rewrite format_input_http_payloads.
    by rewrite chunk_list_nil.
  - by rewrite (format_input_grpc_run _ _ _ _ _ _ Hd).
Qed.

(** ** The order of the checks of [format_input] *)

Lemma format_input_unknown_protocol σ data protocol C kwargs v :
  (σ !!! data) !! "image_arrays" = Some v ->
  protocol <> "grpc" -> protocol <> "http" ->
  format_input str_other data protocol C kwargs σ = (Raise UnsupportedProtocolError, σ).
Proof.
  intros Hd Hg Hh. unfold format_input. run_store.
  apply String.eqb_neq in Hg, Hh. by rewrite Hg, Hh.
Qed.

(** X4. The order of the checks: without ['image_arrays'] in the mapping,
    [format_input] raises the precondition error whatever the protocol,
    known or not; with it, a protocol other than "grpc" and "http" raises
    the unsupported-protocol error whatever the mapping holds;
    [parse_output] raises that error for every response.  The store is
    unchanged. *)
Theorem protocol_and_precondition_errors σ data protocol C kwargs response :
  ((σ !!! data) !! "image_arrays" = None ->
   format_input str_other data protocol C kwargs σ = (Raise PreconditionError, σ)) /\
  (protocol <> "grpc" -> protocol <> "http" ->
   (forall v, (σ !!! data) !! "image_arrays" = Some v ->
              format_input str_other data protocol C kwargs σ
              = (Raise UnsupportedProtocolError, σ)) /\
   parse_output str_other response protocol σ = (Raise UnsupportedProtocolError, σ)).
Proof.
  split.
  - apply format_input_no_arrays.
  - intros Hg Hh. split.
    + intros v Hd. by apply (format_input_unknown_protocol σ data protocol C kwargs v).
    + unfold parse_output. apply String.eqb_neq in Hg, Hh. by rewrite Hg, Hh.
Qed.

Lemma format_input_http_no_strings σ data kwargs C (image_arrays : value) :
  (σ !!! data) !! "image_arrays" = Some image_arrays ->
  (σ !!! data) !! "base64_images" = None ->
  (σ !!! data) !! "base64_image" = None ->
  format_input str_other data "http" C kwargs σ
  = (Raise (KeyError (VStr "base64_image")), σ).
Proof. intros Hd Hm Hs. unfold format_input. run_store. done. Qed.

(** X5. The HTTP branch reads the encoded strings from the mapping: when
    the mapping holds ['image_arrays'] and neither ['base64_images'] nor
    ['base64_image'], [format_input] raises the [KeyError] of the failed
    lookup of ['base64_image'], not one of the errors of the interface,
    where the gRPC branch formats the arrays all the same. *)
Theorem http_format_without_strings σ data kwargs C (image_arrays : value) :
  (σ !!! data) !! "image_arrays" = Some image_arrays ->
  (σ !!! data) !! "base64_images" = None ->
  (σ !!! data) !! "base64_image" = None ->
  format_input str_other data "http" C kwargs σ
  = (Raise (KeyError (VStr "base64_image")), σ) /\
  format_input str_other data "grpc" C kwargs σ
  = ((fun bs => VList (VArr <$> bs)) <$> format_input_grpc image_arrays C, σ).
Proof.
  intros Hd Hm Hs. split.
  - by apply (format_input_http_no_strings σ data kwargs C image_arrays).
  - by apply format_input_grpc_run.
Qed.

(** ** What each branch of [format_input] reads *)

Lemma format_input_http_kwargs (base64_list : value) C kwargs kwargs2 :
  kwargs !! "max_tokens" = kwargs2 !! "max_tokens" ->
  kwargs !! "temperature" = kwargs2 !! "temperature" ->
  kwargs !! "top_p" = kwargs2 !! "top_p" ->
  format_input_http str_other base64_list C kwargs
  = format_input_http str_other base64_list C kwargs2.
Proof.
  intros Hm Ht Hp. unfold format_input_http, kwargs_get.
  by rewrite Hm, Ht, Hp.
Qed.

(** X6. What [format_input] reads.  The gRPC branch reads ['image_arrays']
    and the batch size only: neither the encoded strings nor the keyword
    arguments change its result.  The HTTP branch reads the encoded strings,
    the batch size and the three generation parameters only: neither the
    value under ['image_arrays'] (it need not even be a list of arrays) nor
    another keyword argument changes its result. *)
Theorem format_input_reads σ σ2 data data2 kwargs kwargs2 C :
  (forall v,
     (σ !!! data) !! "image_arrays" = Some v ->
     (σ2 !!! data2) !! "image_arrays" = Some v ->
     (format_input str_other data "grpc" C kwargs σ).1
     = (format_input str_other data2 "grpc" C kwargs2 σ2).1) /\
  (forall v v2,
     (σ !!! data) !! "image_arrays" = Some v ->
     (σ2 !!! data2) !! "image_arrays" = Some v2 ->
     (σ !!! data) !! "base64_images" = (σ2 !!! data2) !! "base64_images" ->
     (σ !!! data) !! "base64_image" = (σ2 !!! data2) !! "base64_image" ->
     kwargs !! "max_tokens" = kwargs2 !! "max_tokens" ->
     kwargs !! "temperature" = kwargs2 !! "temperature" ->
     kwargs !! "top_p" = kwargs2 !! "top_p" ->
     (format_input str_other data "http" C kwargs σ).1
     = (format_input str_other data2 "http" C kwargs2 σ2).1).
Proof.
  split.
  - intros v Hd Hd2.
    by rewrite (format_input_grpc_run _ _ _ _ _ _ Hd),
               (format_input_grpc_run _ _ _ _ _ _ Hd2).
  - intros v v2 Hd Hd2 Hm Hs Hk1 Hk2 Hk3.
    destruct ((σ !!! data) !! "base64_images") as [l |] eqn:Hl.
    + rewrite (format_input_http_many _ _ _ _ _ _ _ Hd Hl).
      rewrite (format_input_http_many _ _ _ _ _ _ _ Hd2 (eq_sym Hm)).
      cbn [fst]. by rewrite (format_input_http_kwargs l C kwargs kwargs2).
    + destruct ((σ !!! data) !! "base64_image") as [b |] eqn:Hb.
      * rewrite (format_input_http_single _ _ _ _ _ _ _ Hd Hl Hb).
        rewrite (format_input_http_single _ _ _ _ _ _ _ Hd2 (eq_sym Hm) (eq_sym Hs)).
        cbn [fst]. by rewrite (format_input_http_kwargs _ C kwargs kwargs2).
      * rewrite (format_input_http_no_strings _ _ _ _ _ Hd Hl Hb).
        by rewrite (format_input_http_no_strings _ _ _ _ _ Hd2 (eq_sym Hm) (eq_sym Hs)).
Qed.

(** ** Decoding in [prepare_data_for_inference] *)

Lemma mapM_result_Forall2 {A B} (f : A -> result B) (l : list A) (ys : list B) :
  Forall2 (fun x y => f x = Ok y) l ys -> mapM_result f l = Ok ys.
Proof.
  induction 1 as [| x y l ys Hx _ IH]; simpl; [done |]. by rewrite Hx, IH.
Qed.

Lemma mapM_result_first_failure {A B} (f : A -> result B)
    (pre : list A) (x : A) (post : list A) (e : exn) :
  Forall (fun x => exists y, f x = Ok y) pre -> f x = Raise e ->
  mapM_result f (pre ++ x :: post) = Raise e.
Proof.
  intros Hpre Hx. induction Hpre as [| x0 pre [y Hy] _ IH]; simpl.
  - by rewrite Hx.
  - by rewrite Hy, IH.
Qed.

(** X7. Decoding a list of encoded images: when every string decodes,
    [prepare_data_for_inference] stores one array per string, in the order
    of the strings; when one does not, it raises the exception of the
    first string that fails, and the mapping is left as it was, with no
    array stored. *)
Theorem prepare_decodes_in_order σ data (strings : list value) :
  (σ !!! data) !! "base64_images" = Some (VList strings) ->
  (forall arrs,
     Forall2 (fun b64 a => base64_to_numpy b64 = Ok a) strings arrs ->
     prepare_data_for_inference base64_to_numpy data σ
     = (Ok data, with_image_arrays σ data arrs)) /\
  (forall pre b64 post e,
     strings = pre ++ b64 :: post ->
     Forall (fun x => exists a, base64_to_numpy x = Ok a) pre ->
     base64_to_numpy b64 = Raise e ->
     prepare_data_for_inference base64_to_numpy data σ = (Raise e, σ)).
Proof.
  intros Hm. rewrite (prepare_many base64_to_numpy σ data strings Hm). split.
  - intros arrs Harrs. by rewrite (mapM_result_Forall2 _ _ _ Harrs).
  - intros pre b64 post e -> Hpre Hb.
    by rewrite (mapM_result_first_failure _ _ _ _ _ Hpre Hb).
Qed.

(** ** One image *)

Lemma np_concatenate_one (p : ndarray) (items : list float32) :
  shape p <> [] -> buf p = F32 items -> np_concatenate [p] = Ok p.
Proof.
  intros Hs Hb. unfold np_concatenate, ndim. destruct p as [s b]. simpl in *.
  destruct s as [| n s]; [done |]. simpl. subst b.
  unfold concat_buffers. simpl. by rewrite Nat.add_0_r, app_nil_r.
Qed.

Lemma promote_nonempty (a : ndarray) : shape a <> [] -> promote a <> [].
Proof. unfold promote. by destruct (Nat.eqb (ndim a) 3). Qed.

(** X8. One image under ['base64_image']: when it decodes to an array [a]
    with at least one dimension, preparing the mapping and formatting it
    gives, for every positive batch size, exactly one gRPC batch, which is
    [a] promoted when it has three dimensions (and with its own dimensions
    otherwise), cast and scaled, and exactly one HTTP payload, with the one
    message of that image. *)
Theorem single_image_requests σ data kwargs (b64 : value) (a : ndarray) C :
  (σ !!! data) !! "base64_images" = None ->
  (σ !!! data) !! "base64_image" = Some b64 ->
  base64_to_numpy b64 = Ok a ->
  shape a <> [] ->
  0 < C ->
  let σ' := with_image_arrays σ data [a] in
  (d ← prepare_data_for_inference base64_to_numpy data;
   format_input str_other d "grpc" C kwargs) σ
  = (Ok (VList [VArr {| shape := promote a; buf := F32 (normalize a) |}]), σ') /\
  (d ← prepare_data_for_inference base64_to_numpy data;
   format_input str_other d "http" C kwargs) σ
  = (Ok (VList [payload_of str_other kwargs [b64]]), σ').
Proof.
  intros Hm Hs Hdec Hshape HC σ'.
  assert (Hprep : prepare_data_for_inference base64_to_numpy data σ = (Ok data, σ')).
  { by rewrite (prepare_single base64_to_numpy σ data b64 Hm Hs), Hdec. }
  assert (Hd : (σ' !!! data) !! "image_arrays" = Some (VList (VArr <$> [a]))).
  { unfold σ'. rewrite with_image_arrays_lookup. apply lookup_insert_eq. }
  assert (Hm' : (σ' !!! data) !! "base64_images" = None).
  { unfold σ'. by rewrite with_image_arrays_entry. }
  assert (Hs' : (σ' !!! data) !! "base64_image" = Some b64).
  { unfold σ'. by rewrite with_image_arrays_entry. }
  unfold mbind, M_bind. rewrite Hprep. split.
  - rewrite (format_input_grpc_run _ _ _ _ _ _ Hd).
    destruct (promote a) as [| B dims] eqn:Hp; [by apply promote_nonempty in Hp |].
    rewrite (format_input_grpc_checked dims [a] C); [| done | ].
    2: { constructor; [by exists B | constructor]. }
    cbn [map]. rewrite chunk_list_short by (done || (simpl; lia)).
    cbn [mbind result_bind mapM_result].
    rewrite (np_concatenate_one _ (normalize a)).
    + unfold processed_image. by rewrite Hp.
    + unfold processed_image. simpl. by rewrite Hp.
    + done.
  - rewrite (format_input_http_single _ _ _ _ _ _ _ Hd Hm' Hs').
    rewrite format_input_http_payloads.
    by rewrite chunk_list_short by (done || (simpl; lia)).
Qed.

(** ** Arrays that already hold a batch *)

Lemma concat_batch_buffers (dims : list nat) (chunks : list (list ndarray)) :
  concat (map (fun b => f32_items (buf b)) (map (batch_of dims) chunks))
  = concat (map normalize (concat chunks)).
Proof.
  induction chunks as [| chunk chunks IH]; simpl; [done |].
  by rewrite IH, map_app, concat_app.
Qed.

(** X9. Arrays that already hold a batch: on a non-empty list of arrays
    that agree on their dimensions after the first one (images of three
    dimensions count as batches of one), and for a positive batch size,
    the batch made from a chunk has as many rows as its arrays have
    together, so that [max_batch_size] bounds the number of arrays in a
    request and not its number of rows; and the values of the batches, in
    order, are the scaled values of the arrays in their original order. *)
Theorem grpc_batches_of_batched_arrays σ data kwargs (imgs : list ndarray)
    (dims : list nat) C :
  (σ !!! data) !! "image_arrays" = Some (VList (VArr <$> imgs)) ->
  imgs <> [] ->
  Forall (fun a => exists B, promote a = B :: dims) imgs ->
  0 < C ->
  exists chunks batches,
    chunk_list imgs C = Ok chunks /\
    format_input str_other data "grpc" C kwargs σ
      = (Ok (VList (VArr <$> batches)), σ) /\
    Forall2 (fun chunk b =>
               shape b = foldr Nat.add 0%nat (map (fun a => hd 0%nat (promote a)) chunk)
                         :: dims /\
               buf b = F32 (concat (map normalize chunk)))
            chunks batches /\
    concat (map (fun b => f32_items (buf b)) batches) = concat (map normalize imgs).
Proof.
  intros Hd Hne Hdims HC.
  destruct (format_input_grpc_batches dims imgs C Hne Hdims HC)
    as (chunks & Hchunks & Hfmt).
  destruct (chunk_list_spec imgs C HC) as (chunks' & Hchunks' & _ & _ & Hcat).
  assert (chunks' = chunks) as -> by congruence.
  exists chunks, (map (batch_of dims) chunks).
  split; [done |]. split; [| split].
  - by rewrite (format_input_grpc_run _ _ _ _ _ _ Hd), Hfmt.
  - apply Forall2_fmap_r, Forall_Forall2_diag, Forall_forall. by intros chunk _.
  - by rewrite concat_batch_buffers, Hcat.
Qed.

(** ** Values that are not arrays *)

(** X10. A value that is not an array among ['image_arrays']: the loop of
    the gRPC branch raises [AttributeError] at the first such value,
    before the list is tested for emptiness and the shapes are compared. *)
Theorem grpc_format_non_array σ data kwargs C (pre : list ndarray) (v : value)
    (post : list value) :
  (σ !!! data) !! "image_arrays" = Some (VList ((VArr <$> pre) ++ v :: post)) ->
  (forall a, v <> VArr a) ->
  format_input str_other data "grpc" C kwargs σ = (Raise AttributeError, σ).
Proof.
  intros Hd Hv. rewrite (format_input_grpc_run _ _ _ _ _ _ Hd).
  unfold format_input_grpc. cbn [as_list mbind result_bind].
  rewrite (mapM_result_first_failure process_image _ v post AttributeError).
  - done.
  - rewrite Forall_fmap. apply Forall_forall. intros a _.
    exists (processed_image a). apply process_image_processed.
  - destruct v; try done. by destruct (Hv a).
Qed.

(** ** Responses that do not parse *)

Lemma parse_item_ok (item : value) :
  item_ok item -> exists s, parse_item str_other item = Ok s.
Proof. intros Hok. eexists. by apply parse_item_render. Qed.

Lemma decode_members_first_failure (ms : list value) (m : value)
    (ms' : list value) (e : exn) :
  Forall is_utf8_bytes ms ->
  match m with VBytes b => bytes_decode b | _ => Raise AttributeError end = Raise e ->
  parse_item str_other (VList (ms ++ m :: ms')) = Raise e.
Proof.
  intros Hms Hm. cbn [parse_item].
  rewrite (mapM_result_first_failure _ ms m ms' e); [done | | done].
  eapply Forall_impl; [exact Hms |].
  intros o (b & -> & Hb). eexists. by apply bytes_decode_valid.
Qed.

(** X11. A gRPC response that does not parse: [parse_output] raises the
    exception of the first element that fails, and returns no partial
    result.  An element fails with [UnicodeDecodeError] when it is a byte
    string, or a list whose first bad member is a byte string, that is not
    well-formed UTF-8, and with [AttributeError] when it is a list whose
    first bad member is not a byte string (a [str], say). *)
Theorem grpc_parse_first_failure σ (pre : list value) (bad : value) (post : list value) :
  Forall item_ok pre ->
  ((exists b, utf8_valid b = false /\
              (bad = VBytes b \/
               exists ms ms', bad = VList (ms ++ VBytes b :: ms') /\
                              Forall is_utf8_bytes ms)) ->
   parse_output str_other (VList (pre ++ bad :: post)) "grpc" σ
   = (Raise UnicodeDecodeError, σ)) /\
  ((exists ms m ms', bad = VList (ms ++ m :: ms') /\ Forall is_utf8_bytes ms /\
                     forall b, m <> VBytes b) ->
   parse_output str_other (VList (pre ++ bad :: post)) "grpc" σ
   = (Raise AttributeError, σ)).
Proof.
  intros Hpre.
  assert (Hfail : forall e, parse_item str_other bad = Raise e ->
            parse_output str_other (VList (pre ++ bad :: post)) "grpc" σ = (Raise e, σ)).
  { intros e He. rewrite parse_output_grpc_run.
    rewrite (mapM_result_first_failure _ pre bad post e); [done | | done].
    eapply Forall_impl; [exact Hpre |]. apply parse_item_ok. }
  split.
  - intros (b & Hb & [-> | (ms & ms' & -> & Hms)]); apply Hfail.
    + cbn [parse_item]. unfold bytes_decode. by rewrite Hb.
    + apply decode_members_first_failure; [done |].
      unfold bytes_decode. by rewrite Hb.
  - intros (ms & m & ms' & -> & Hms & Hm). apply Hfail.
    apply decode_members_first_failure; [done |].
    destruct m; try done. by destruct (Hm b).
Qed.

(** X12. Only the first choice of an HTTP response is read: two responses
    whose ['choices'] are lists with the same first element parse to the
    same result, whatever else they hold.  When that first element is a
    mapping without ['message'], or its message a mapping without
    ['content'], [parse_output] raises the [KeyError] of the failed lookup
    and not the malformed-response error. *)
Theorem http_parse_first_choice_only σ (json_response json_response2 : dict)
    (first : value) (rest rest2 : list value) :
  json_response !! "choices" = Some (VList (first :: rest)) ->
  json_response2 !! "choices" = Some (VList (first :: rest2)) ->
  parse_output str_other (VDict json_response) "http" σ
  = parse_output str_other (VDict json_response2) "http" σ /\
  (forall m1 : dict, first = VDict m1 -> m1 !! "message" = None ->
     parse_output str_other (VDict json_response) "http" σ
     = (Raise (KeyError (VStr "message")), σ)) /\
  (forall m1 m2 : dict, first = VDict m1 -> m1 !! "message" = Some (VDict m2) ->
     m2 !! "content" = None ->
     parse_output str_other (VDict json_response) "http" σ
     = (Raise (KeyError (VStr "content")), σ)).
Proof.
  intros Hc Hc2. rewrite !parse_output_http_run.
  unfold _extract_content_from_deplot_response. rewrite Hc, Hc2.
  split; [done |]. split.
  - intros m1 -> Hm1. simpl. by rewrite Hm1.
  - intros m1 m2 -> Hm1 Hm2. simpl. rewrite Hm1. simpl. by rewrite Hm2.
Qed.

(** ** Scaling keeps the order of the pixel values *)

Lemma f32_increasing_lookup (l : list float32) (i j : nat) (x y : float32) :
  f32_increasing l = true -> (i < j)%nat ->
  l !! i = Some x -> l !! j = Some y -> f32_ltb x y = true.
Proof.
  revert i j. induction l as [| z l IH]; intros i j Hinc Hij Hi Hj; [done |].
  simpl in Hinc. apply andb_prop in Hinc as [Hz Hl].
  destruct j as [| j]; [lia |]. simpl in Hj.
  destruct i as [| i]; simpl in Hi.
  - injection Hi as ->. rewrite forallb_forall in Hz. apply Hz.
    apply list_elem_of_In. by eapply list_elem_of_lookup_2.
  - apply (IH i j); [done | lia | done | done].
Qed.

Lemma scaled_pixels_increasing : f32_increasing scaled_pixels = true.
Proof. vm_compute. reflexivity. Qed.

Lemma scaled_pixels_lookup (p : byte) :
  scaled_pixels !! N.to_nat (Byte.to_N p) = Some (scaled_pixel p).
Proof.
  pose proof (Byte.to_N_bounded p) as Hp.
  unfold scaled_pixels. change (map ?f ?l) with (f <$> l).
  rewrite list_lookup_fmap, lookup_seq_lt by lia.
  simpl. unfold scaled_pixel, f32_of_byte. do 3 f_equal. lia.
Qed.

(** X13. Scaling keeps the order of the pixel values: an image of 8-bit
    pixels is cast and divided pixel by pixel; pixel value 0 becomes
    exactly 0.0 and 255 exactly 1.0; and a larger pixel value becomes a
    strictly larger binary32 number, so that no two pixel values are
    merged by the rounding. *)
Theorem pixel_scaling_increasing (a : ndarray) (px : list byte) :
  buf a = U8 px ->
  process_image (VArr a) = Ok {| shape := promote a; buf := F32 (map scaled_pixel px) |} /\
  scaled_pixel x00 = f32_zero /\
  scaled_pixel xff = f32_one /\
  (forall p q, (Byte.to_N p < Byte.to_N q)%N ->
               f32_ltb (scaled_pixel p) (scaled_pixel q) = true).
Proof.
  intros Hpx. split; [| split; [reflexivity | split; [reflexivity |]]].
  - rewrite process_image_processed. unfold processed_image.
    by rewrite (normalize_u8 a px Hpx).
  - intros p q Hlt.
    apply (f32_increasing_lookup scaled_pixels (N.to_nat (Byte.to_N p))
             (N.to_nat (Byte.to_N q))).
    + apply scaled_pixels_increasing.
    + lia.
    + apply scaled_pixels_lookup.
    + apply scaled_pixels_lookup.
Qed.

(** ** Reading the encoded images back from a payload *)

Lemma string_length_app (s t : string) :
  String.length (s +:+ t) = (String.length s + String.length t)%nat.
Proof. induction s as [| c s IH]; simpl; [done |]. by rewrite IH. Qed.

Lemma string_app_inv_tail (s s' t : string) : s +:+ t = s' +:+ t -> s = s'.
Proof.
  revert s'. induction s as [| c s IH]; intros [| c' s'] Heq; simpl in Heq.
  - done.
  - apply (f_equal String.length) in Heq.
    rewrite ?string_length_app in Heq. simpl in Heq.
    rewrite ?string_length_app in Heq. lia.
  - apply (f_equal String.length) in Heq.
    rewrite ?string_length_app in Heq. simpl in Heq.
    rewrite ?string_length_app in Heq. lia.
  - injection Heq as -> Heq. f_equal. by apply IH.
Qed.

Lemma message_content_inj (s s' : string) :
  message_content s = message_content s' -> s = s'.
Proof.
  unfold message_content. intros Heq.
  do 4 apply String.app_inj in Heq.
  by apply string_app_inv_tail in Heq.
Qed.

Lemma deplot_message_inj (s s' : string) :
  deplot_message str_other (VStr s) = deplot_message str_other (VStr s') -> s = s'.
Proof.
  intros Heq. apply message_content_inj.
  destruct (deplot_message_is_user_message str_other (VStr s))
    as (m & Hm & _ & _ & Hcontent).
  destruct (deplot_message_is_user_message str_other (VStr s'))
    as (m' & Hm' & _ & _ & Hcontent').
  rewrite Heq in Hm. rewrite Hm' in Hm. injection Hm as <-.
  rewrite Hcontent' in Hcontent. unfold py_str in Hcontent. congruence.
Qed.

(** X14. The encoded images can be read back from a payload: two payloads
    built from lists of strings are equal only if the lists are equal, so
    that a payload determines its images and their order (and distinct
    images never give the same message). *)
Theorem payload_determines_images (chunk chunk' : list string)
    (max_tokens temperature top_p max_tokens' temperature' top_p' : value) :
  _prepare_deplot_payload str_other (VStr <$> chunk) max_tokens temperature top_p
  = _prepare_deplot_payload str_other (VStr <$> chunk') max_tokens' temperature' top_p' ->
  chunk = chunk'.
Proof.
  intros Heq.
  apply (f_equal (fun v => match v with
                           | VDict d => d !! "messages"
                           | _ => None
                           end)) in Heq.
  change (Some (VList (map (deplot_message str_other) (VStr <$> chunk)))
          = Some (VList (map (deplot_message str_other) (VStr <$> chunk')))) in Heq.
  assert (Hmsgs : map (deplot_message str_other) (VStr <$> chunk)
                  = map (deplot_message str_other) (VStr <$> chunk')) by congruence.
  clear Heq. rename Hmsgs into Heq.
  revert chunk' Heq. induction chunk as [| s chunk IH]; intros [| s' chunk'] Heq;
    try discriminate; [done |].
  csimpl in Heq.
  assert (Hs : deplot_message str_other (VStr s) = deplot_message str_other (VStr s'))
    by congruence.
  assert (Hrest : map (deplot_message str_other) (VStr <$> chunk)
                  = map (deplot_message str_other) (VStr <$> chunk')) by congruence.
  f_equal; [by apply deplot_message_inj | by apply IH].
Qed.

(** ** The errors of [format_input] on a prepared mapping *)

Lemma mapM_result_errors {A B} (P : exn -> Prop) (f : A -> result B) (l : list A) e :
  (forall x e, f x = Raise e -> P e) -> mapM_result f l = Raise e -> P e.
Proof.
  intros Hf. induction l as [| x l IH]; simpl; [done |].
  destruct (f x) as [y | e'] eqn:Hx.
  - destruct (mapM_result f l); [done |]. intros [= ->]. by apply IH.
  - intros [= ->]. by apply (Hf x).
Qed.

Lemma chunk_list_errors {A} (l : list A) C e :
  chunk_list l C = Raise e -> is_ValueError e.
Proof.
  unfold chunk_list, py_range. destruct (bool_decide (C = 0)).
  - intros [= <-]. by eexists.
  - by destruct (bool_decide (0 < C)).
Qed.

Lemma np_concatenate_errors (arrs : list ndarray) e :
  np_concatenate arrs = Raise e -> is_ValueError e.
Proof.
  unfold np_concatenate. destruct arrs as [| a0 rest].
  - intros [= <-]. by eexists.
  - repeat (match goal with |- context [if ?b then _ else _] => destruct b end);
      try done; intros [= <-]; by eexists.
Qed.

Lemma format_input_grpc_errors (imgs : list ndarray) C e :
  format_input_grpc (VList (VArr <$> imgs)) C = Raise e -> is_ValueError e.
Proof.
  unfold format_input_grpc. cbn [as_list mbind result_bind].
  rewrite process_images. cbn [mbind result_bind].
  destruct (map processed_image imgs) as [| p0 ps].
  { intros [= <-]. by eexists. }
  destruct (existsb _ _).
  { intros [= <-]. by eexists. }
  destruct (chunk_list (p0 :: ps) C) as [chunks |] eqn:Hchunks; cbn [mbind result_bind].
  - apply mapM_result_errors. apply np_concatenate_errors.
  - intros [= <-]. by apply chunk_list_errors in Hchunks.
Qed.

Lemma format_input_http_errors (l : list value) C kwargs e :
  format_input_http str_other (VList l) C kwargs = Raise e -> is_ValueError e.
Proof.
  rewrite format_input_http_payloads.
  destruct (chunk_list l C) as [chunks |] eqn:Hchunks; [done |].
  intros [= <-]. by apply chunk_list_errors in Hchunks.
Qed.

(** X15. On a mapping that [prepare_data_for_inference] has returned,
    [format_input] raises nothing but [ValueError], whatever the protocol
    string, the batch size and the images: the precondition error, the
    [KeyError] of a missing string, [TypeError] and [AttributeError] are
    ruled out by the preparation. *)
Theorem format_after_prepare_errors σ σ' data d protocol C kwargs e :
  prepare_data_for_inference base64_to_numpy data σ = (Ok d, σ') ->
  (format_input str_other d protocol C kwargs σ').1 = Raise e ->
  exists msg, e = ValueError msg.
Proof.
  rewrite prepare_cases. intros Hprep Hfmt.
  assert (Hcases : d = data /\ exists arrs strings,
            σ' = with_image_arrays σ data arrs /\
            ((σ !!! data) !! "base64_images" = Some (VList strings) \/
             ((σ !!! data) !! "base64_images" = None /\
              exists b, (σ !!! data) !! "base64_image" = Some b /\ strings = [b]))).
  { destruct ((σ !!! data) !! "base64_images") as [v |] eqn:Hm.
    - destruct v; try done.
      destruct (mapM_result base64_to_numpy l) as [arrs |]; [| done].
      injection Hprep as <- <-. split; [done |]. exists arrs, l. eauto.
    - destruct ((σ !!! data) !! "base64_image") as [b |] eqn:Hs; [| done].
      destruct (base64_to_numpy b) as [arr |]; [| done].
      injection Hprep as <- <-. split; [done |]. exists [arr], [b]. eauto 10. }
  destruct Hcases as (-> & arrs & strings & -> & Hstrings).
  assert (Hd : (with_image_arrays σ data arrs !!! data) !! "image_arrays"
               = Some (VList (VArr <$> arrs))).
  { rewrite with_image_arrays_lookup. apply lookup_insert_eq. }
  destruct (String.eqb_spec protocol "grpc") as [-> | Hg].
  { rewrite (format_input_grpc_run _ _ _ _ _ _ Hd) in Hfmt. cbn [fst] in Hfmt.
    destruct (format_input_grpc _ C) eqn:Hgrpc; [done |].
    injection Hfmt as <-. by apply format_input_grpc_errors in Hgrpc. }
  destruct (String.eqb_spec protocol "http") as [-> | Hh].
  { destruct Hstrings as [Hm | (Hm & b & Hs & ->)].
    - rewrite (format_input_http_many str_other _ data C kwargs _ (VList strings) Hd)
        in Hfmt by (by rewrite with_image_arrays_entry).
      cbn [fst] in Hfmt.
      destruct (format_input_http _ _ C kwargs) eqn:Hhttp; [done |].
      injection Hfmt as <-. by apply format_input_http_errors in Hhttp.
    - rewrite (format_input_http_single str_other _ data C kwargs _ b Hd)
        in Hfmt by (by rewrite with_image_arrays_entry).
      cbn [fst] in Hfmt.
      destruct (format_input_http _ _ C kwargs) eqn:Hhttp; [done |].
      injection Hfmt as <-. by apply format_input_http_errors in Hhttp. }
  rewrite (format_input_unknown_protocol _ _ _ _ _ _ Hd Hg Hh) in Hfmt.
  injection Hfmt as <-. by eexists.
Qed.

End further.

Lemma format_nonpositive_batch_size_witness :
  (format_input sample_str 1%positive "grpc" 0 ∅ prepared_store
   = (Raise (ValueError "range() arg 3 must not be zero"), prepared_store) /\
   format_input sample_str 1%positive "http" 0 ∅ prepared_store
   = (Raise (ValueError "range() arg 3 must not be zero"), prepared_store)) /\
  (format_input sample_str 1%positive "grpc" (-1) ∅ prepared_store
   = (Ok (VList []), prepared_store) /\
   format_input sample_str 1%positive "http" (-1) ∅ prepared_store
   = (Ok (VList []), prepared_store)).
Proof.
  assert (Hdims : Forall (fun a => exists B, promote a = B :: [1; 1; 3]%nat)
                    [sample_image; sample_image]).
  { repeat constructor; exists 1%nat; reflexivity. }
  split.
  - apply (proj1 (format_nonpositive_batch_size sample_str prepared_store 1%positive ∅
                    [sample_image; sample_image] [1; 1; 3]%nat
                    [VStr "QQ=="; VStr "Qg=="] 0 eq_refl eq_refl
                    ltac:(discriminate) Hdims)).
    reflexivity.
  - apply (proj2 (format_nonpositive_batch_size sample_str prepared_store 1%positive ∅
                    [sample_image; sample_image] [1; 1; 3]%nat
                    [VStr "QQ=="; VStr "Qg=="] (-1) eq_refl eq_refl
                    ltac:(discriminate) Hdims)).
    lia.
Defined.

Lemma empty_image_list_witness :
  prepare_data_for_inference sample_decoder 1%positive empty_list_store
  = (Ok 1%positive, with_image_arrays empty_list_store 1%positive []) /\
  format_input sample_str 1%positive "http" 2 ∅
    (with_image_arrays empty_list_store 1%positive [])
  = (Ok (VList []), with_image_arrays empty_list_store 1%positive []) /\
  format_input sample_str 1%positive "grpc" 2 ∅
    (with_image_arrays empty_list_store 1%positive [])
  = (Raise EmptyInputError, with_image_arrays empty_list_store 1%positive []).
Proof.
  apply (empty_image_list sample_decoder sample_str empty_list_store 1%positive ∅ 2).
  - reflexivity.
  - discriminate.
Defined.

Lemma protocol_and_precondition_errors_witness :
  format_input sample_str 1%positive "rest" 1 ∅ sample_store
  = (Raise PreconditionError, sample_store) /\
  format_input sample_str 1%positive "rest" 1 ∅ prepared_store
  = (Raise UnsupportedProtocolError, prepared_store) /\
  parse_output sample_str (VDict sample_response) "rest" prepared_store
  = (Raise UnsupportedProtocolError, prepared_store).
Proof.
  split.
  - apply (proj1 (protocol_and_precondition_errors sample_str sample_store 1%positive
                    "rest" 1 ∅ VNone)).
    reflexivity.
  - pose proof (proj2 (protocol_and_precondition_errors sample_str prepared_store
                         1%positive "rest" 1 ∅ (VDict sample_response))
                  ltac:(discriminate) ltac:(discriminate)) as [Hfmt Hparse].
    split; [| exact Hparse].
    apply (Hfmt (VList (VArr <$> [sample_image; sample_image]))). reflexivity.
Defined.

Lemma http_format_without_strings_witness :
  format_input sample_str 1%positive "http" 1 ∅ arrays_only_store
  = (Raise (KeyError (VStr "base64_image")), arrays_only_store) /\
  format_input sample_str 1%positive "grpc" 1 ∅ arrays_only_store
  = ((fun bs => VList (VArr <$> bs))
       <$> format_input_grpc (VList [VArr sample_image]) 1, arrays_only_store).
Proof.
  apply (http_format_without_strings sample_str arrays_only_store 1%positive ∅ 1);
    reflexivity.
Defined.

Lemma format_input_reads_witness :
  (format_input sample_str 1%positive "grpc" 2 ∅ prepared_store).1
  = (format_input sample_str 2%positive "grpc" 2 (<["top_p" := VInt 1]> ∅) other_store).1 /\
  (format_input sample_str 1%positive "http" 2 ∅ prepared_store).1
  = (format_input sample_str 1%positive "http" 2 (<["seed" := VInt 7]> ∅) mixed_store).1.
Proof.
  split.
  - apply (proj1 (format_input_reads sample_str prepared_store other_store
                    1%positive 2%positive ∅ (<["top_p" := VInt 1]> ∅) 2)
             (VList (VArr <$> [sample_image; sample_image])));
      reflexivity.
  - apply (proj2 (format_input_reads sample_str prepared_store mixed_store
                    1%positive 1%positive ∅ (<["seed" := VInt 7]> ∅) 2)
             (VList (VArr <$> [sample_image; sample_image]))
             (VList (VArr <$> [sample_image; wide_image])));
      reflexivity.
Defined.

Lemma prepare_decodes_in_order_witness :
  prepare_data_for_inference strict_decoder 1%positive one_string_store
  = (Ok 1%positive, with_image_arrays one_string_store 1%positive [sample_image]) /\
  prepare_data_for_inference strict_decoder 1%positive sample_store
  = (Raise (ValueError "not an image"), sample_store).
Proof.
  split.
  - apply (proj1 (prepare_decodes_in_order strict_decoder one_string_store 1%positive
                    [VStr "QQ=="] eq_refl)).
    repeat constructor.
  - apply (proj2 (prepare_decodes_in_order strict_decoder sample_store 1%positive
                    [VStr "QQ=="; VStr "Qg=="] eq_refl)
             [VStr "QQ=="] (VStr "Qg==") []).
    + reflexivity.
    + repeat constructor. by exists sample_image.
    + reflexivity.
Defined.

Lemma single_image_requests_witness :
  (d ← prepare_data_for_inference sample_decoder 1%positive;
   format_input sample_str d "grpc" 4 ∅) single_store
  = (Ok (VList [VArr {| shape := promote sample_image;
                        buf := F32 (normalize sample_image) |}]),
     with_image_arrays single_store 1%positive [sample_image]) /\
  (d ← prepare_data_for_inference sample_decoder 1%positive;
   format_input sample_str d "http" 4 ∅) single_store
  = (Ok (VList [payload_of sample_str ∅ [VStr "QQ=="]]),
     with_image_arrays single_store 1%positive [sample_image]).
Proof.
  apply (single_image_requests sample_decoder sample_str single_store 1%positive ∅
           (VStr "QQ==") sample_image 4).
  - reflexivity.
  - reflexivity.
  - reflexivity.
  - discriminate.
  - lia.
Defined.

Lemma grpc_batches_of_batched_arrays_witness :
  exists chunks batches,
    chunk_list [sample_image; batched_image] 2 = Ok chunks /\
    format_input sample_str 1%positive "grpc" 2 ∅ batched_store
      = (Ok (VList (VArr <$> batches)), batched_store) /\
    Forall2 (fun chunk b =>
               shape b = foldr Nat.add 0%nat (map (fun a => hd 0%nat (promote a)) chunk)
                         :: [1; 1; 3]%nat /\
               buf b = F32 (concat (map normalize chunk)))
            chunks batches /\
    concat (map (fun b => f32_items (buf b)) batches)
    = concat (map normalize [sample_image; batched_image]).
Proof.
  apply (grpc_batches_of_batched_arrays sample_str batched_store 1%positive ∅
           [sample_image; batched_image] [1; 1; 3]%nat 2).
  - reflexivity.
  - discriminate.
  - repeat constructor; [by exists 1%nat | by exists 2%nat].
  - lia.
Defined.

Lemma grpc_format_non_array_witness :
  format_input sample_str 1%positive "grpc" 1 ∅ non_array_store
  = (Raise AttributeError, non_array_store).
Proof.
  apply (grpc_format_non_array sample_str non_array_store 1%positive ∅ 1
           [sample_image] (VStr "QQ==") []).
  - reflexivity.
  - discriminate.
Defined.

Lemma grpc_parse_first_failure_witness :
  parse_output sample_str (VList ([VBytes [x61]] ++ VBytes [xff] :: [VStr "zz"]))
    "grpc" sample_store
  = (Raise UnicodeDecodeError, sample_store) /\
  parse_output sample_str
    (VList ([VBytes [x61]] ++ VList ([VBytes [x62]] ++ VStr "c" :: []) :: []))
    "grpc" sample_store
  = (Raise AttributeError, sample_store).
Proof.
  assert (Hpre : Forall item_ok [VBytes [x61]]) by (repeat constructor).
  split.
  - apply (proj1 (grpc_parse_first_failure sample_str sample_store [VBytes [x61]]
                    (VBytes [xff]) [VStr "zz"] Hpre)).
    exists [xff]. split; [reflexivity | by left].
  - apply (proj2 (grpc_parse_first_failure sample_str sample_store [VBytes [x61]]
                    (VList ([VBytes [x62]] ++ VStr "c" :: [])) [] Hpre)).
    exists [VBytes [x62]], (VStr "c"), [].
    split; [reflexivity |]. split; [| discriminate].
    repeat constructor. exists [x62]. by split.
Defined.

Lemma http_parse_first_choice_only_witness :
  parse_output sample_str (VDict sample_response) "http" sample_store
  = parse_output sample_str
      (VDict (<["choices" :=
                 VList [VDict (<["message" := VDict (<["content" := VStr "42,17"]> ∅)]> ∅);
                        VNone]]>
              (<["id" := VInt 1]> ∅)))
      "http" sample_store.
Proof.
  apply (http_parse_first_choice_only sample_str sample_store sample_response
           (<["choices" :=
               VList [VDict (<["message" := VDict (<["content" := VStr "42,17"]> ∅)]> ∅);
                      VNone]]>
            (<["id" := VInt 1]> ∅))
           (VDict (<["message" := VDict (<["content" := VStr "42,17"]> ∅)]> ∅))
           [] [VNone]);
    reflexivity.
Defined.

Lemma pixel_scaling_increasing_witness :
  process_image (VArr sample_image)
  = Ok {| shape := promote sample_image;
          buf := F32 (map scaled_pixel [x00; x80; xff]) |} /\
  scaled_pixel x00 = f32_zero /\
  scaled_pixel xff = f32_one /\
  (forall p q, (Byte.to_N p < Byte.to_N q)%N ->
               f32_ltb (scaled_pixel p) (scaled_pixel q) = true).
Proof. apply (pixel_scaling_increasing sample_image [x00; x80; xff]). reflexivity. Defined.

Lemma payload_determines_images_witness : ["QQ=="; "Qg=="] = ["QQ=="; "Qg=="].
Proof.
  apply (payload_determines_images sample_str ["QQ=="; "Qg=="] ["QQ=="; "Qg=="]
           (VInt 500) VNone VNone (VInt 500) VNone VNone).
  reflexivity.
Defined.

Lemma format_after_prepare_errors_witness :
  exists msg, ValueError "range() arg 3 must not be zero" = ValueError msg.
Proof.
  apply (format_after_prepare_errors sample_decoder sample_str sample_store
           prepared_store 1%positive 1%positive "grpc" 0 ∅).
  - reflexivity.
  - reflexivity.
Defined.
